(** * cma/interfaces.py: the optimizer driver and the sampling-model base class

    A shallow embedding of [OOOptimizer] (the ask/evaluate/tell loop of
    [optimize], [_prepare_callback_list], [_force_final_logging]) and of
    [StatisticalModelSamplerWithZeroMeanBaseClass] ([update], [parameters]).

    Python objects are records of attributes, an attribute that has not been
    assigned is [Absent]; methods are state transformers that return a value
    or raise, and the state a method has written survives the exception.
    The cache of [parameters] is studied on exact rationals ([Q]), where
    rounding plays no part; the arithmetic of [parameters] is replayed on
    binary64 floats in [Binary64]. *)

From Stdlib Require Import String ZArith QArith Qminmax List Bool Lia.
From Corelib Require Import PrimFloat.
Import ListNotations.

Set Implicit Arguments.

(** ** Exceptions, results and the state-with-exceptions monad *)

Inductive exn : Type :=
| NotImplementedError
| AttributeError
| TypeError
| ValueError
| AssertionError
| ZeroDivisionError
| UserError (tag : nat).

Inductive res (A : Type) : Type :=
| Ok (a : A)
| Raise (e : exn).

Arguments Ok {A} a.
Arguments Raise {A} e.

(** An attribute of a Python object: assigned or not. Reading an [Absent]
    attribute raises [AttributeError]. *)
Inductive attr (A : Type) : Type :=
| Absent
| Present (a : A).

Arguments Absent {A}.
Arguments Present {A} a.

Definition M (S A : Type) : Type := S -> S * res A.

Definition ret {S A} (a : A) : M S A := fun s => (s, Ok a).

Definition raise {S A} (e : exn) : M S A := fun s => (s, Raise e).

Definition bind {S A B} (m : M S A) (k : A -> M S B) : M S B :=
  fun s => match m s with
           | (s1, Ok a) => k a s1
           | (s1, Raise e) => (s1, Raise e)
           end.

Definition getattr {S A} (field : S -> attr A) : M S A :=
  fun s => match field s with
           | Present a => (s, Ok a)
           | Absent => (s, Raise AttributeError)
           end.

Declare Scope py_scope.
Delimit Scope py_scope with py.
Notation "x <- m ;; k" := (bind m (fun x => k))
  (at level 61, m at next level, right associativity) : py_scope.
Notation "m ;;; k" := (bind m (fun _ => k))
  (at level 61, right associativity) : py_scope.

(** ** The sampling model: [StatisticalModelSamplerWithZeroMeanBaseClass] *)

Module Sampler.

Local Open Scope Q_scope.

(** The [dict(c1=..., cmu=...)] built by [parameters]. [dict_id] is the
    identity of the dict object: the number of dicts this sampler had built
    before it. Two results are the same object iff they are equal records. *)
Record pdict : Type := { dict_id : nat; c1 : Q; cmu : Q }.

Record sampler : Type := {
  dimension : Q;
  weights : attr (list Q);
  _parameters : attr pdict;
  dicts_built : nat
}.

(** [update] of the base class: [raise NotImplementedError], nothing else. *)
Definition update (vectors : list (list Q)) (ws : list Q) : M sampler unit :=
  raise NotImplementedError.

(** Python's builtin [sum]: a left fold that starts from the int [0]. *)
Definition sum (l : list Q) : Q := fold_left Qplus l 0.

(** [a / b] where [b] is computed: division by zero raises. *)
Definition div (a b : Q) : res Q :=
  if Qeq_bool b 0 then Raise ZeroDivisionError else Ok (a / b).

(** [a < b] as a test. *)
Definition Qltb (a b : Q) : bool := negb (Qle_bool b a).

(** [[w for w in weights if w > 0]] *)
Definition positive (ws : list Q) : list Q := filter (fun w => Qltb 0 w) ws.

Definition squares (w : list Q) : list Q := map (fun x => x ^ 2) w.

(** [sum(w)**2 / sum(w**2)] *)
Definition mueff_of (w : list Q) : res Q := div (sum w ^ 2) (sum (squares w)).

(** The denominators of the two learning rates, as the source writes them. *)
Definition c1_den (dim mueff : Q) : Q := (dim + (13 # 10)) ^ 2 + mueff.
Definition cmu_den (dim mueff : Q) : Q := (dim + 2) ^ 2 + 2 * mueff / 2.

(** The lines of [parameters] after the cache test, without the stores:
    [lam], [w], [mueff], [c1] and the second entry of the dict. *)
Definition rates (dim : Q) (ws : list Q) : res (Q * Q) :=
  let lam := inject_Z (Z.of_nat (length ws)) in
  let w := positive ws in
  match mueff_of w with
  | Raise e => Raise e
  | Ok mueff =>
    match div (Qmin 1 (lam / 6) * 2) (c1_den dim mueff) with
    | Raise e => Raise e
    | Ok c1v =>
      match div 1 mueff with
      | Raise e => Raise e
      | Ok inv_mueff =>
        match div (2 * (mueff - 2 + inv_mueff)) (cmu_den dim mueff) with
        | Raise e => Raise e
        | Ok r => Ok (c1v, Qmin (1 - c1v) r)
        end
      end
    end
  end.

Section Numpy.

(** What numpy answers to [a == b] when the shapes of [a] and [b] cannot be
    broadcast together: the scalar [False] in the releases the source was
    written for, a [ValueError] in later ones. *)
Variable shape_mismatch : res bool.

(** [np.all(stored == ws)] on one-dimensional arrays: elementwise on equal
    lengths, an array of length one is broadcast against the other. *)
Definition np_all_eq (stored ws : list Q) : res bool :=
  if (length stored =? length ws)%nat then
    Ok (forallb (fun p => Qeq_bool (fst p) (snd p)) (combine stored ws))
  else match stored, ws with
       | [a], _ => Ok (forallb (fun b => Qeq_bool a b) ws)
       | _, [b] => Ok (forallb (fun a => Qeq_bool a b) stored)
       | _, _ => shape_mismatch
       end.

(** The [try] block that opens [parameters]: [Ok (Some p)] is
    [return self._parameters], [Ok None] falls through to the computation
    (the test failed, or an [AttributeError] was caught). *)
Definition cached (ws : list Q) (s : sampler) : res (option pdict) :=
  match weights s with
  | Absent => Ok None
  | Present stored =>
    match np_all_eq stored ws with
    | Raise AttributeError => Ok None
    | Raise e => Raise e
    | Ok false => Ok None
    | Ok true =>
      match _parameters s with
      | Absent => Ok None
      | Present p => Ok (Some p)
      end
    end
  end.

Definition parameters (ws : list Q) : M sampler pdict :=
  fun s =>
    match cached ws s with
    | Raise e => (s, Raise e)
    | Ok (Some p) => (s, Ok p)
    | Ok None =>
      let s1 := {| dimension := dimension s; weights := Present ws;
                   _parameters := _parameters s;
                   dicts_built := dicts_built s |} in
      match rates (dimension s) ws with
      | Raise e => (s1, Raise e)
      | Ok (c1v, cmuv) =>
        let d := {| dict_id := dicts_built s; c1 := c1v; cmu := cmuv |} in
        ({| dimension := dimension s; weights := Present ws;
            _parameters := Present d;
            dicts_built := S (dicts_built s) |}, Ok d)
      end
    end.

End Numpy.

(** A sampler of a concrete subclass right after construction: the
    dimension is set, [parameters] has not been called. *)
Definition fresh (dim : Q) : sampler :=
  {| dimension := dim; weights := Absent; _parameters := Absent;
     dicts_built := 0 |}.

(** *** The formulas in the words of the specification *)

Definition total (l : list Q) : Q := fold_right Qplus 0 l.

Definition mueff_spec (ws : list Q) : Q :=
  total (positive ws) ^ 2 / total (squares (positive ws)).

Definition c1_spec (dim : Q) (ws : list Q) : Q :=
  Qmin 1 (inject_Z (Z.of_nat (length ws)) / 6) * 2
  / ((dim + (13 # 10)) ^ 2 + mueff_spec ws).

Definition cmu_spec (dim : Q) (ws : list Q) : Q :=
  Qmin (1 - c1_spec dim ws)
       (2 * (mueff_spec ws - 2 + 1 / mueff_spec ws)
        / ((dim + 2) ^ 2 + 2 * mueff_spec ws / 2)).

Definition has_positive (ws : list Q) : Prop := exists w, In w ws /\ 0 < w.

(** The cached dict belongs to the stored weights. Every call that returns
    leaves the sampler so; a call that raises after it has stored the
    weights does not. *)
Definition consistent (s : sampler) : Prop :=
  match weights s, _parameters s with
  | Present stored, Present p =>
    c1 p == c1_spec (dimension s) stored /\
    cmu p == cmu_spec (dimension s) stored
  | _, _ => True
  end.

End Sampler.

(** ** The arithmetic of [parameters] in binary64

    [Module Sampler] above takes the weights as exact rationals, which is
    enough for the cache of [parameters]. The program computes with numpy's
    float64: this module replays [parameters] on IEEE 754 binary64 numbers,
    rounded to nearest even. The weights are float64 values; [dimension] is
    a Python int below [2 ^ 53], which is a float64 exactly; [x ** 2.0] on a
    float is the correctly rounded [x * x]; numpy's error handling is the
    default one, which warns and does not raise. *)

Module Binary64.

Local Open Scope float_scope.

(** What Python's builtin [sum] returns: the int [0] it starts from when
    the array is empty, a float64 otherwise. *)
Inductive number : Type :=
| PyInt (z : Z)
| PyFloat (f : float).

(** A Python int as a float64; exact below [2 ^ 53]. *)
Fixpoint float_of_pos (p : positive) : float :=
  match p with
  | xH => 1
  | xO q => 2 * float_of_pos q
  | xI q => 2 * float_of_pos q + 1
  end.

Definition float_of_Z (z : Z) : float :=
  match z with
  | Z0 => 0
  | Zpos p => float_of_pos p
  | Zneg p => - float_of_pos p
  end.

(** [sum(w)]: [0 + w[0] + w[1] + ...], from the left. *)
Definition sum (w : list float) : number :=
  match w with
  | [] => PyInt 0
  | x :: rest => PyFloat (fold_left PrimFloat.add rest (0 + x))
  end.

(** [n ** 2] *)
Definition square (n : number) : number :=
  match n with
  | PyInt z => PyInt (z * z)
  | PyFloat f => PyFloat (f * f)
  end.

(** [w ** 2] on an array *)
Definition squares (w : list float) : list float := map (fun x => x * x) w.

(** [a / b]: between two Python ints a zero divisor raises; as soon as a
    numpy float64 takes part it does not, the result is [nan] or infinite. *)
Definition divide (a b : number) : res float :=
  match a, b with
  | PyInt x, PyInt y =>
    if (y =? 0)%Z then Raise ZeroDivisionError
    else Ok (float_of_Z x / float_of_Z y)
  | PyInt x, PyFloat y => Ok (float_of_Z x / y)
  | PyFloat x, PyInt y => Ok (x / float_of_Z y)
  | PyFloat x, PyFloat y => Ok (x / y)
  end.

(** [np.min((a, b))]: a [nan] wins. *)
Definition np_min (a b : float) : float :=
  if is_nan a || is_nan b then nan else if b <? a then b else a.

(** [[w for w in weights if w > 0]] *)
Definition positive (ws : list float) : list float :=
  filter (fun w => 0 <? w) ws.

(** [1.3], the float64 nearest to it. *)
Definition one_point_three : float := 0x1.4cccccccccccdp+0.

(** The denominators of the two rates. [(dimension + 2)**2] is a product of
    Python ints, turned into a float64 when [mueff] is added. *)
Definition c1_den (dim : Z) (mueff : float) : float :=
  (float_of_Z dim + one_point_three) * (float_of_Z dim + one_point_three)
  + mueff.

Definition cmu_den (dim : Z) (mueff : float) : float :=
  float_of_Z ((dim + 2) * (dim + 2)) + 2 * mueff / 2.

(** The lines of [parameters] after the cache test, without the stores. *)
Definition rates (dim : Z) (ws : list float) : res (float * float) :=
  let lam := float_of_Z (Z.of_nat (length ws)) in
  let w := positive ws in
  match divide (square (sum w)) (sum (squares w)) with
  | Raise e => Raise e
  | Ok mueff =>
    let c1v := np_min 1 (lam / 6) * 2 / c1_den dim mueff in
    Ok (c1v,
        np_min (1 - c1v)
               (2 * (mueff - 2 + 1 / mueff) / cmu_den dim mueff))
  end.

Record pdict : Type := { dict_id : nat; c1 : float; cmu : float }.

Record sampler : Type := {
  dimension : Z;
  weights : attr (list float);
  _parameters : attr pdict;
  dicts_built : nat
}.

Section Numpy.

(** As in [Sampler]: numpy's answer to [==] on shapes that cannot be
    broadcast. *)
Variable shape_mismatch : res bool.

(** [np.all(stored == ws)]; [nan] differs from itself. *)
Definition np_all_eq (stored ws : list float) : res bool :=
  if (length stored =? length ws)%nat then
    Ok (forallb (fun p => fst p =? snd p) (combine stored ws))
  else match stored, ws with
       | [x], _ => Ok (forallb (fun y => x =? y) ws)
       | _, [y] => Ok (forallb (fun x => x =? y) stored)
       | _, _ => shape_mismatch
       end.

Definition cached (ws : list float) (s : sampler) : res (option pdict) :=
  match weights s with
  | Absent => Ok None
  | Present stored =>
    match np_all_eq stored ws with
    | Raise AttributeError => Ok None
    | Raise e => Raise e
    | Ok false => Ok None
    | Ok true =>
      match _parameters s with
      | Absent => Ok None
      | Present p => Ok (Some p)
      end
    end
  end.

Definition parameters (ws : list float) : M sampler pdict :=
  fun s =>
    match cached ws s with
    | Raise e => (s, Raise e)
    | Ok (Some p) => (s, Ok p)
    | Ok None =>
      let s1 := {| dimension := dimension s; weights := Present ws;
                   _parameters := _parameters s;
                   dicts_built := dicts_built s |} in
      match rates (dimension s) ws with
      | Raise e => (s1, Raise e)
      | Ok (c1v, cmuv) =>
        let d := {| dict_id := dicts_built s; c1 := c1v; cmu := cmuv |} in
        ({| dimension := dimension s; weights := Present ws;
            _parameters := Present d;
            dicts_built := S (dicts_built s) |}, Ok d)
      end
    end.

End Numpy.

Definition fresh (dim : Z) : sampler :=
  {| dimension := dim; weights := Absent; _parameters := Absent;
     dicts_built := 0 |}.

Definition has_positive (ws : list float) : Prop :=
  exists w, In w ws /\ (0 <? w) = true.

(** *** The formulas in the words of the specification, on float64 *)

Fixpoint sum_of_positive (ws : list float) : float :=
  match ws with
  | [] => 0
  | w :: rest =>
    if 0 <? w then w + sum_of_positive rest else sum_of_positive rest
  end.

Fixpoint sum_of_squares_of_positive (ws : list float) : float :=
  match ws with
  | [] => 0
  | w :: rest =>
    if 0 <? w then w * w + sum_of_squares_of_positive rest
    else sum_of_squares_of_positive rest
  end.

Definition mueff_formula (ws : list float) : float :=
  sum_of_positive ws * sum_of_positive ws / sum_of_squares_of_positive ws.

Definition c1_formula (dim : Z) (ws : list float) : float :=
  np_min 1 (float_of_Z (Z.of_nat (length ws)) / 6) * 2
  / ((float_of_Z dim + one_point_three) * (float_of_Z dim + one_point_three)
     + mueff_formula ws).

Definition cmu_formula (dim : Z) (ws : list float) : float :=
  np_min (1 - c1_formula dim ws)
         (2 * (mueff_formula ws - 2 + 1 / mueff_formula ws)
          / (float_of_Z ((dim + 2) * (dim + 2)) + 2 * mueff_formula ws / 2)).

End Binary64.

(** ** The optimizer driver: [OOOptimizer] *)

Module Optimizer.

Local Open Scope Z_scope.
Local Open Scope py_scope.

(** What [stop()] returns: the satisfied termination conditions with their
    values; the empty dictionary is the falsy one. *)
Definition reasons : Type := list (string * Z).

Definition truthy (r : reasons) : bool :=
  match r with [] => false | _ :: _ => true end.

Section Interface.

(** The attributes of the optimizer instance, the candidate solutions and
    the objective values. *)
Variables St X F : Type.

(** A logger object: its [modulo] attribute and its [add] method, each
    possibly missing. [add] is called as [add(optim)] ([None]) or as
    [add(optim, modulo=m)] ([Some m]). *)
Record logger_obj : Type := {
  modulo : attr Z;
  add : attr (option Z -> M St unit)
}.

(** The methods a subclass provides, and the [logger] attribute of the
    instance: absent, [None] (falsy) or a logger object. *)
Record OOOptimizer : Type := {
  ask : M St (list X);
  tell : list X -> list F -> M St unit;
  stop : M St reasons;
  disp : option Z -> M St unit;
  result : M St (X * F);
  logger : St -> attr (option logger_obj)
}.

(** An element of the callback list. *)
Inductive pyval : Type :=
| VNone
| VCallable (f : M St unit)
| VNotCallable.

(** The [callback] argument of [optimize]. *)
Inductive callback_arg : Type :=
| CbNone
| CbCallable (f : M St unit)
| CbList (l : list pyval)
| CbNotIterable.

Inductive printed : Type :=
| PTermination (r : reasons)
| PBestF (f : F)
| PSolution (x : X)
| PSuppressed.

(** What the driver does, in order. *)
Inductive event : Type :=
| EvStop
| EvAsk
| EvEval (x : X)
| EvTell
| EvDisp (m : option Z)
| EvCallback (k : nat)
| EvForceFinalLogging
| EvLoggerAdd (m : Z)
| EvResult
| EvPrint (p : printed).

(** *** Reading a trace *)

Definition count (p : event -> bool) (t : list event) : nat :=
  length (filter p t).

Definition is_eval (e : event) : bool :=
  match e with EvEval _ => true | _ => false end.

Definition is_ask (e : event) : bool :=
  match e with EvAsk => true | _ => false end.

Definition is_flush (e : event) : bool :=
  match e with EvForceFinalLogging => true | _ => false end.

Definition is_callback (e : event) : bool :=
  match e with EvCallback _ => true | _ => false end.

(** The events of an iteration of the loop that [ask], the objective
    function, [tell] and the callbacks account for. *)
Definition in_iteration (e : event) : bool :=
  match e with
  | EvAsk | EvEval _ | EvTell | EvCallback _ => true
  | _ => false
  end.

(** The events after the loop that follow the entry of
    [_force_final_logging]. *)
Definition in_final_output (e : event) : bool :=
  match e with
  | EvLoggerAdd _ | EvPrint _ | EvDisp _ | EvStop | EvResult => true
  | _ => false
  end.

Definition after_eval (e : event) : bool :=
  match e with
  | EvTell | EvDisp _ | EvCallback _ => true
  | _ => false
  end.

Definition in_loop (e : event) : bool :=
  match e with
  | EvStop | EvAsk | EvEval _ | EvTell | EvDisp _ | EvCallback _ => true
  | _ => false
  end.

Record world : Type := { self : St; trace : list event }.

(** A call on the instance, recorded when it is made. *)
Definition call {A} (ev : event) (m : M St A) : M world A :=
  fun w => let (s, r) := m (self w) in
           ({| self := s; trace := trace w ++ [ev] |}, r).

Definition print (p : printed) : M world unit :=
  fun w => ({| self := self w; trace := trace w ++ [EvPrint p] |}, Ok tt).

(** The arguments of [optimize]; the budgets are integers ([maxfun]'s
    default [1e99] is [10 ^ 99]), [verb_disp] is [None] or a number. *)
Record args : Type := {
  objective_fct : X -> M St F;
  maxfun : Z;
  iterations : option Z;
  min_iterations : Z;
  verb_disp : option Z;
  callback : callback_arg
}.

Variable o : OOOptimizer.

(** Every batch that [ask] delivers holds at most [k] candidates. *)
Definition ask_bound (k : nat) : Prop :=
  forall s s' xs, ask o s = (s', Ok xs) -> (length xs <= k)%nat.

(** The callables of a list run one after the other on the instance. *)
Definition run_all (gs : list (M St unit)) (s : St) : St :=
  fold_left (fun s g => fst (g s)) gs s.

Definition callable (v : pyval) : bool :=
  match v with VCallable _ => true | _ => false end.

(** [self.logger.add], looked up: [None] when the lookup raises
    [AttributeError] (no [logger] attribute, [logger] is [None], or the
    logger has no [add]). *)
Definition logger_add (s : St) : option (M St unit) :=
  match logger o s with
  | Present (Some lg) =>
    match add lg with
    | Present f => Some (f None)
    | Absent => None
    end
  | _ => None
  end.

Definition _prepare_callback_list (cb : callback_arg) (s : St)
    : res (list pyval) :=
  let as_list :=
    match cb with
    | CbNone => Ok []
    | CbCallable f => Ok [VCallable f]
    | CbList l => Ok l
    | CbNotIterable => Raise TypeError
    end in
  match as_list with
  | Raise e => Raise e
  | Ok l =>
    let l1 := match logger_add s with
              | Some f => l ++ [VCallable f]
              | None => l
              end in
    if forallb callable l1 then Ok l1 else Raise ValueError
  end.

(** [for f in callback: f is None or f(self)], [k] is the position of the
    head of [cbs] in the list. *)
Fixpoint dispatch (k : nat) (cbs : list pyval) : M world unit :=
  match cbs with
  | [] => ret tt
  | f :: rest =>
    match f with
    | VNone => ret tt
    | VCallable g => call (EvCallback k) g
    | VNotCallable => raise TypeError
    end ;;; dispatch (S k) rest
  end.

(** [[objective_fct(x, *args) for x in X]] *)
Fixpoint evaluate (f : X -> M St F) (xs : list X) : M world (list F) :=
  match xs with
  | [] => ret []
  | x :: rest =>
    v <- call (EvEval x) (f x) ;;
    vs <- evaluate f rest ;;
    ret (v :: vs)
  end.

(** The body of the loop after [citer += 1]; it returns [len(fitvals)]. *)
Definition iteration (a : args) (cbs : list pyval) : M world nat :=
  xs <- call EvAsk (ask o) ;;
  fitvals <- evaluate (objective_fct a) xs ;;
  call EvTell (tell o xs fitvals) ;;;
  call (EvDisp (verb_disp a)) (disp o (verb_disp a)) ;;;
  dispatch 0 cbs ;;;
  ret (length fitvals).

(** [citer >= (iterations if iterations else np.inf)] *)
Definition ceiling_reached (its : option Z) (citer : Z) : bool :=
  match its with
  | None => false
  | Some n => if n =? 0 then false else n <=? citer
  end.

(** How the loop was left: its test became false ([Break], with what
    [stop()] had returned) or the [return self] inside it was reached
    ([Return]); both with the counters [citer] and [cevals] at that
    moment. *)
Inductive ctrl : Type :=
| Break (r : reasons) (citer cevals : Z)
| Return (citer cevals : Z).

Fixpoint while_loop (fuel : nat) (a : args) (cbs : list pyval)
    (citer cevals : Z) (w : world) : option (world * res ctrl) :=
  match fuel with
  | O => None
  | S fuel' =>
    match call EvStop (stop o) w with
    | (w1, Raise e) => Some (w1, Raise e)
    | (w1, Ok r) =>
      if negb (truthy r) || (citer <? min_iterations a) then
        if (maxfun a <=? cevals) || ceiling_reached (iterations a) citer
        then Some (w1, Ok (Return citer cevals))
        else match iteration a cbs w1 with
             | (w2, Raise e) => Some (w2, Raise e)
             | (w2, Ok n) =>
               while_loop fuel' a cbs (citer + 1) (cevals + Z.of_nat n) w2
             end
      else Some (w1, Ok (Break r citer cevals))
    end
  end.

Definition _force_final_logging : M world unit :=
  fun w0 =>
    let w := {| self := self w0;
                trace := trace w0 ++ [EvForceFinalLogging] |} in
    match logger o (self w) with
    | Absent => (w, Raise AttributeError)
    | Present None => (w, Ok tt)
    | Present (Some lg) =>
      let m := match modulo lg with
               | Present z => Z.b2z (negb (z =? 0))
               | Absent => 1
               end in
      match add lg with
      | Absent => (w, Ok tt)
      | Present f =>
        match call (EvLoggerAdd m) (f (Some m)) w with
        | (w1, Ok _) => (w1, Ok tt)
        | (w1, Raise AttributeError) => (w1, Ok tt)
        | (w1, Raise TypeError) => print PSuppressed w1
        | (w1, Raise e) => (w1, Raise e)
        end
      end
    end.

Definition flag (v : option Z) : bool :=
  match v with
  | None => false
  | Some z => negb (z =? 0)
  end.

(** The lines of [optimize] after the loop, up to [return self]. *)
Definition final_output (a : args) : M world unit :=
  _force_final_logging ;;;
  if flag (verb_disp a) then
    call (EvDisp (Some 1)) (disp o (Some 1)) ;;;
    r <- call EvStop (stop o) ;;
    print (PTermination r) ;;;
    r1 <- call EvResult (result o) ;;
    print (PBestF (snd r1)) ;;;
    r0 <- call EvResult (result o) ;;
    print (PSolution (fst r0))
  else ret tt.

(** [iterations is None or min_iterations <= iterations] *)
Definition precondition (a : args) : bool :=
  match iterations a with
  | None => true
  | Some n => min_iterations a <=? n
  end.

(** [optimize]: [None] when [fuel] rounds of the loop were not enough,
    otherwise the world at the end and [Ok tt] for [return self] (the
    instance is [self] of that world) or the exception that left it. *)
Definition optimize (fuel : nat) (a : args) (w : world)
    : option (world * res unit) :=
  if precondition a then
    match _prepare_callback_list (callback a) (self w) with
    | Raise e => Some (w, Raise e)
    | Ok cbs =>
      match while_loop fuel a cbs 0 0 w with
      | None => None
      | Some (w1, Raise e) => Some (w1, Raise e)
      | Some (w1, Ok (Return _ _)) => Some (w1, Ok tt)
      | Some (w1, Ok (Break _ _ _)) => Some (final_output a w1)
      end
    end
  else Some (w, Raise AssertionError).

End Interface.

Arguments VNone {St}.
Arguments VNotCallable {St}.
Arguments CbNone {St}.
Arguments CbNotIterable {St}.
Arguments PTermination {X F} r.
Arguments PBestF {X F} f.
Arguments PSolution {X F} x.
Arguments PSuppressed {X F}.
Arguments EvStop {X F}.
Arguments EvAsk {X F}.
Arguments EvEval {X F} x.
Arguments EvTell {X F}.
Arguments EvDisp {X F} m.
Arguments EvCallback {X F} k.
Arguments EvForceFinalLogging {X F}.
Arguments EvLoggerAdd {X F} m.
Arguments EvResult {X F}.
Arguments EvPrint {X F} p.
Arguments is_eval {X F} e.
Arguments is_ask {X F} e.
Arguments is_flush {X F} e.
Arguments is_callback {X F} e.
Arguments in_iteration {X F} e.
Arguments in_final_output {X F} e.
Arguments after_eval {X F} e.
Arguments in_loop {X F} e.

(** *** The abstract base class itself *)

Module Base.

(** The attributes that [__init__], [initialize] and [tell] touch. *)
Record instance : Type := {
  xstart : attr (list Z);
  more_kwargs : attr (list (string * Z));
  countiter : attr Z;
  xcurrent : attr (list Z)
}.

(** The object before [__init__] runs. *)
Definition blank : instance :=
  {| xstart := Absent; more_kwargs := Absent; countiter := Absent;
     xcurrent := Absent |}.

(** [initialize] raises in its first line; the two assignments below the
    [raise] are not reached. *)
Definition initialize : M instance unit := raise NotImplementedError.

Definition __init__ (xs : list Z) (kw : list (string * Z)) : M instance unit :=
  fun s => initialize {| xstart := Present xs; more_kwargs := Present kw;
                         countiter := countiter s; xcurrent := xcurrent s |}.

Definition ask : M instance (list (list Z)) := raise NotImplementedError.

(** [self.countiter += 1], then [raise NotImplementedError]. *)
Definition tell (solutions : list (list Z)) (function_values : list Z)
    : M instance unit :=
  fun s =>
    match countiter s with
    | Absent => (s, Raise AttributeError)
    | Present n =>
      ({| xstart := xstart s; more_kwargs := more_kwargs s;
          countiter := Present (n + 1); xcurrent := xcurrent s |},
       Raise NotImplementedError)
    end.

Definition stop : M instance reasons := raise NotImplementedError.

Definition disp (m : option Z) : M instance unit := ret tt.

Definition result : M instance (list Z * Z) := raise NotImplementedError.

(** The base class assigns no [logger]. *)
Definition optimizer : OOOptimizer instance (list Z) Z :=
  {| Optimizer.ask := ask; Optimizer.tell := tell; Optimizer.stop := stop;
     Optimizer.disp := disp; Optimizer.result := result;
     logger := fun _ => Absent |}.

(** An instance on which a subclass has set [countiter] to [0]. *)
Definition initialized : instance :=
  {| xstart := Present [0; 0]; more_kwargs := Present [];
     countiter := Present 0; xcurrent := Present [0; 0] |}.

End Base.

(** *** A concrete optimizer to run the driver on

    The candidates are always [[1, 0]] and [[0, 1]], [tell] keeps the better
    one, [stop()] is non-empty once [countiter >= 3]. *)

Module Stub.

Record state : Type := {
  countiter : Z;
  xcurrent : list Z;
  fcurrent : Z;
  lines : nat
}.

Definition init : state :=
  {| countiter := 0; xcurrent := [0; 0]; fcurrent := 0; lines := 0 |}.

Definition sphere (x : list Z) : Z := fold_left (fun acc c => acc + c * c) x 0.

Definition f : list Z -> M state Z := fun x => ret (sphere x).

(** The pair with the least value, the earlier one on ties. *)
Fixpoint best (xs : list (list Z)) (fs : list Z) : option (list Z * Z) :=
  match xs, fs with
  | x :: xs', v :: fs' =>
    match best xs' fs' with
    | Some (xb, fb) => if fb <? v then Some (xb, fb) else Some (x, v)
    | None => Some (x, v)
    end
  | _, _ => None
  end.

Definition ask : M state (list (list Z)) := ret [[1; 0]; [0; 1]].

Definition tell (xs : list (list Z)) (fs : list Z) : M state unit :=
  fun s =>
    let (xb, fb) := match best xs fs with
                    | Some p => p
                    | None => (xcurrent s, fcurrent s)
                    end in
    ({| countiter := countiter s + 1; xcurrent := xb; fcurrent := fb;
        lines := lines s |}, Ok tt).

Definition stop : M state reasons :=
  fun s => (s, Ok (if 3 <=? countiter s then [("maxiter"%string, 3)] else [])).

Definition disp (m : option Z) : M state unit := ret tt.

Definition result : M state (list Z * Z) :=
  fun s => (s, Ok (xcurrent s, fcurrent s)).

Definition add_line : M state unit :=
  fun s => ({| countiter := countiter s; xcurrent := xcurrent s;
               fcurrent := fcurrent s; lines := S (lines s) |}, Ok tt).

(** A logger whose [add] takes the [modulo] keyword. *)
Definition data_logger : logger_obj state :=
  {| modulo := Present 5; add := Present (fun _ => add_line) |}.

(** A logger whose [add] takes no [modulo] keyword. *)
Definition plain_logger : logger_obj state :=
  {| modulo := Absent;
     add := Present (fun m => match m with
                              | None => add_line
                              | Some _ => raise TypeError
                              end) |}.

Definition optimizer (lg : attr (option (logger_obj state)))
    : OOOptimizer state (list Z) Z :=
  {| Optimizer.ask := ask; Optimizer.tell := tell; Optimizer.stop := stop;
     Optimizer.disp := disp; Optimizer.result := result;
     logger := fun _ => lg |}.

Definition start : world state (list Z) Z := {| self := init; trace := [] |}.

(** [optimize(f)] with the defaults of the signature. *)
Definition defaults : args state (list Z) Z :=
  {| objective_fct := f; maxfun := 10 ^ 99; iterations := None;
     min_iterations := 1; verb_disp := None; callback := CbNone |}.

Definition with_budgets (mf : Z) (its : option Z) (mi : Z)
    : args state (list Z) Z :=
  {| objective_fct := f; maxfun := mf; iterations := its;
     min_iterations := mi; verb_disp := None; callback := CbNone |}.


End Stub.

(** *** Rounds of the loop *)

Section Rounds.

Variables X F : Type.

(** One completed round of the loop: the test, [ask], one evaluation per
    candidate of the batch, [tell], [disp(verb_disp)] and the [n] callbacks
    of the list. *)
Definition round_events (v : option Z) (n : nat) (xs : list X)
    : list (event X F) :=
  EvStop :: EvAsk :: map EvEval xs
  ++ EvTell :: EvDisp v :: map EvCallback (seq 0 n).

End Rounds.

Arguments round_events {X F} v n xs.

(** *** A run of the loop, round by round *)

Section Run.

Variables St X F : Type.
Variable o : OOOptimizer St X F.
Variable a : args St X F.

(** The callables of the prepared list. *)
Variable gs : list (M St unit).

(** The callables of a list, called one after the other from the state
    [s], all return. *)
Fixpoint all_return (l : list (M St unit)) (s : St) : Prop :=
  match l with
  | [] => True
  | g :: rest => exists s', g s = (s', Ok tt) /\ all_return rest s'
  end.

(** One completed round from the world [w], with the counters at [citer]
    and [cevals]: [stop()] returns [rs] and the test lets the loop go on,
    no budget is reached, [ask()] returns the batch [xs], the objective
    function is called on [xs] and returns [vs], [tell(xs, vs)] and
    [disp(verb_disp)] return, and so does every callback of the list,
    called in the order of the list on the instance as the one before left
    it. *)
Inductive round (citer cevals : Z) (w : world St X F) (xs : list X)
    (w' : world St X F) : Prop :=
| round_intro (s0 : St) (rs : reasons) (s1 : St) (w2 : world St X F)
    (vs : list F) (s3 s4 : St) :
    stop o (self w) = (s0, Ok rs) ->
    truthy rs = false \/ citer < min_iterations a ->
    cevals < maxfun a ->
    ceiling_reached (iterations a) citer = false ->
    ask o s0 = (s1, Ok xs) ->
    evaluate (objective_fct a) xs
      {| self := s1; trace := trace w ++ [EvStop; EvAsk] |} = (w2, Ok vs) ->
    tell o xs vs (self w2) = (s3, Ok tt) ->
    disp o (verb_disp a) s3 = (s4, Ok tt) ->
    all_return gs s4 ->
    w' = {| self := run_all gs s4;
            trace := trace w2 ++ EvTell :: EvDisp (verb_disp a)
                     :: map EvCallback (seq 0 (length gs)) |} ->
    round citer cevals w xs w'.

(** Completed rounds one after the other, one per batch; [citer] grows by
    one and [cevals] by the size of the batch from one to the next. *)
Inductive rounds : Z -> Z -> world St X F -> list (list X) -> world St X F
                   -> Prop :=
| rounds_nil (citer cevals : Z) (w : world St X F) :
    rounds citer cevals w [] w
| rounds_cons (citer cevals : Z) (w : world St X F) (xs : list X)
    (w1 : world St X F) (batches : list (list X)) (w' : world St X F) :
    round citer cevals w xs w1 ->
    rounds (citer + 1) (cevals + Z.of_nat (length xs)) w1 batches w' ->
    rounds citer cevals w (xs :: batches) w'.

End Run.

(** *** [BaseDataLogger] attached to an optimizer

    The class assigns no [modulo]; [add] takes [optim], [more_data] and any
    keyword, and raises. *)

Definition base_data_logger (St : Type) : logger_obj St :=
  {| modulo := Absent; add := Present (fun _ => raise NotImplementedError) |}.


Section Stopped.

Variables St X F : Type.
Variable o : OOOptimizer St X F.

(** [stop()] is non-empty whenever it returns. *)
Definition always_stopped : Prop :=
  forall s s' rs, stop o s = (s', Ok rs) -> truthy rs = true.

(** The [logger] attribute is a bare [BaseDataLogger], whatever the state. *)
Definition logs_to_base : Prop :=
  forall s, logger o s = Present (Some (@base_data_logger St)).

End Stopped.



(** The concrete optimizer with a [stop()] that is satisfied from the
    start. *)
Definition stub_stopped : OOOptimizer Stub.state (list Z) Z :=
  {| ask := Stub.ask; tell := Stub.tell;
     stop := fun s => (s, Ok [("ftarget"%string, 0)]);
     disp := Stub.disp; result := Stub.result;
     logger := fun _ => Present None |}.

End Optimizer.

(** * Properties of the sampling model *)

Module SamplerFacts.

Import Sampler.
Local Open Scope Q_scope.

(** *** Arithmetic of the formulas *)

Lemma Qltb_iff (a b : Q) : Qltb a b = true <-> a < b.
Proof.
  unfold Qltb. rewrite negb_true_iff. split; intro H.
  - apply Qnot_le_lt. intro L. apply Qle_bool_iff in L. congruence.
  - destruct (Qle_bool b a) eqn:E; [|reflexivity].
    apply Qle_bool_iff in E. exfalso. exact (Qlt_not_le _ _ H E).
Qed.

Lemma fold_left_total (l : list Q) (a : Q) : fold_left Qplus l a == a + total l.
Proof.
  revert a. induction l as [|x l IH]; intro a; simpl.
  - ring.
  - rewrite IH. ring.
Qed.

Lemma sum_total (l : list Q) : sum l == total l.
Proof. unfold sum. rewrite fold_left_total. ring. Qed.

Lemma positive_In (ws : list Q) (w : Q) :
  In w (positive ws) <-> In w ws /\ 0 < w.
Proof.
  unfold positive. rewrite filter_In, Qltb_iff. reflexivity.
Qed.

Lemma total_nonneg (l : list Q) : (forall x, In x l -> 0 <= x) -> 0 <= total l.
Proof.
  induction l as [|x l IH]; intro H; simpl.
  - apply Qle_refl.
  - replace 0 with (0 + 0) by reflexivity.
    apply Qplus_le_compat; [apply H; now left|].
    apply IH. intros. apply H. now right.
Qed.

Lemma total_pos (l : list Q) :
  l <> [] -> (forall x, In x l -> 0 < x) -> 0 < total l.
Proof.
  destruct l as [|x l]; [congruence|]. intros _ H. simpl.
  replace 0 with (0 + 0) by reflexivity.
  apply Qplus_lt_le_compat; [apply H; now left|].
  apply total_nonneg. intros y Hy. apply Qlt_le_weak, H. now right.
Qed.

Lemma square_pos (x : Q) : 0 < x -> 0 < x ^ 2.
Proof. intro H. simpl. now apply Qmult_lt_0_compat. Qed.

Lemma square_nonneg (x : Q) : 0 <= x ^ 2.
Proof.
  simpl. destruct (Qlt_le_dec x 0) as [N|P].
  - setoid_replace (x * x) with ((- x) * (- x)) by ring.
    assert (0 <= - x).
    { apply Qlt_le_weak. setoid_replace 0 with (- 0) by ring.
      now apply Qopp_lt_compat. }
    now apply Qmult_le_0_compat.
  - now apply Qmult_le_0_compat.
Qed.

Lemma has_positive_nonempty (ws : list Q) :
  has_positive ws -> positive ws <> [].
Proof.
  intros [w [Hin Hw]] E.
  assert (H : In w (positive ws)) by (apply positive_In; now split).
  rewrite E in H. exact H.
Qed.

Lemma no_positive_empty (ws : list Q) : ~ has_positive ws -> positive ws = [].
Proof.
  intro H. destruct (positive ws) as [|w l] eqn:E; [reflexivity|].
  exfalso. apply H. exists w. apply positive_In. rewrite E. now left.
Qed.

Lemma sum_positive_pos (ws : list Q) : has_positive ws -> 0 < sum (positive ws).
Proof.
  intro H. rewrite sum_total. apply total_pos.
  - now apply has_positive_nonempty.
  - intros x Hx. now apply positive_In in Hx.
Qed.

Lemma sum_squares_positive_pos (ws : list Q) :
  has_positive ws -> 0 < sum (squares (positive ws)).
Proof.
  intro H. rewrite sum_total. apply total_pos.
  - unfold squares. intro E. apply map_eq_nil in E.
    now apply has_positive_nonempty in H.
  - intros x Hx. unfold squares in Hx. apply in_map_iff in Hx.
    destruct Hx as [y [<- Hy]]. apply square_pos. now apply positive_In in Hy.
Qed.

Lemma div_pos (a b : Q) : 0 < b -> div a b = Ok (a / b).
Proof.
  intro H. unfold div. destruct (Qeq_bool b 0) eqn:E; [|reflexivity].
  apply Qeq_bool_iff in E. rewrite E in H. discriminate H.
Qed.

Lemma Qdiv_pos (a b : Q) : 0 < a -> 0 < b -> 0 < a / b.
Proof.
  intros Ha Hb. unfold Qdiv. apply Qmult_lt_0_compat; [exact Ha|].
  now apply Qinv_lt_0_compat.
Qed.

Lemma mueff_pos (ws : list Q) :
  has_positive ws -> 0 < sum (positive ws) ^ 2 / sum (squares (positive ws)).
Proof.
  intro H. apply Qdiv_pos.
  - apply square_pos. now apply sum_positive_pos.
  - now apply sum_squares_positive_pos.
Qed.

Lemma c1_den_pos (dim mueff : Q) : 0 < mueff -> 0 < c1_den dim mueff.
Proof.
  intro H. unfold c1_den. replace 0 with (0 + 0) by reflexivity.
  rewrite (Qplus_comm (_ ^ 2)).
  apply Qplus_lt_le_compat; [exact H | apply square_nonneg].
Qed.

Lemma cmu_den_simpl (dim mueff : Q) :
  cmu_den dim mueff == (dim + 2) ^ 2 + mueff.
Proof. unfold cmu_den. field. Qed.

Lemma cmu_den_pos (dim mueff : Q) : 0 < mueff -> 0 < cmu_den dim mueff.
Proof.
  intro H. rewrite cmu_den_simpl. replace 0 with (0 + 0) by reflexivity.
  rewrite (Qplus_comm (_ ^ 2)).
  apply Qplus_lt_le_compat; [exact H | apply square_nonneg].
Qed.

Lemma mueff_spec_eq (ws : list Q) :
  sum (positive ws) ^ 2 / sum (squares (positive ws)) == mueff_spec ws.
Proof. unfold mueff_spec. now rewrite !sum_total. Qed.


Lemma rates_spec (dim : Q) (ws : list Q) :
  has_positive ws ->
  exists c1v cmuv, rates dim ws = Ok (c1v, cmuv) /\
    c1v == c1_spec dim ws /\ cmuv == cmu_spec dim ws.
Proof.
  intro H. pose proof (mueff_pos H) as Hm.
  unfold rates, mueff_of.
  rewrite (div_pos _ (sum_squares_positive_pos H)).
  rewrite (div_pos _ (c1_den_pos dim Hm)).
  rewrite (div_pos _ Hm).
  rewrite (div_pos _ (cmu_den_pos dim Hm)).
  eexists. eexists. split; [reflexivity|].
  unfold c1_spec, cmu_spec, c1_den, cmu_den.
  rewrite !mueff_spec_eq. split; reflexivity.
Qed.

Lemma rates_no_positive (dim : Q) (ws : list Q) :
  ~ has_positive ws -> rates dim ws = Raise ZeroDivisionError.
Proof.
  intro H. unfold rates. now rewrite (no_positive_empty H).
Qed.

Lemma np_all_eq_refl (mm : res bool) (ws : list Q) :
  np_all_eq mm ws ws = Ok true.
Proof.
  unfold np_all_eq. rewrite Nat.eqb_refl. f_equal.
  induction ws as [|x l IH]; simpl; [reflexivity|].
  rewrite IH, andb_true_r. apply Qeq_bool_iff. reflexivity.
Qed.


(** Memoization: right after a call that returned, the same weights get the
    same dict object back and nothing is stored. *)
Lemma parameters_twice (mm : res bool) (ws : list Q) (s s1 : sampler)
    (p : pdict) :
  parameters mm ws s = (s1, Ok p) -> parameters mm ws s1 = (s1, Ok p).
Proof.
  unfold parameters at 1. destruct (cached mm ws s) as [[q|]|e] eqn:Hc.
  - intro E. injection E as <- <-. unfold parameters. now rewrite Hc.
  - destruct (rates (dimension s) ws) as [[a b]|e]; [|discriminate].
    intro E. injection E as <- <-. unfold parameters, cached. simpl.
    now rewrite np_all_eq_refl.
  - discriminate.
Qed.


Lemma rates_positive (dim : Q) (ws : list Q) (r : Q * Q) :
  rates dim ws = Ok r -> has_positive ws.
Proof.
  intro H. destruct (positive ws) as [|w l] eqn:E.
  - unfold rates in H. rewrite E in H. discriminate H.
  - exists w. apply positive_In. rewrite E. now left.
Qed.

(** Every call that returns leaves the cache consistent. *)
Lemma parameters_consistent (mm : res bool) (ws : list Q) (s s1 : sampler)
    (p : pdict) :
  consistent s -> parameters mm ws s = (s1, Ok p) -> consistent s1.
Proof.
  intro Hs. unfold parameters. destruct (cached mm ws s) as [[q|]|e].
  - intro E. now injection E as <- _.
  - destruct (rates (dimension s) ws) as [[a b]|e] eqn:Er; [|discriminate].
    intro E. injection E as <- _. unfold consistent. simpl.
    destruct (rates_spec (dimension s) (rates_positive _ _ Er))
      as [a' [b' [Er' H]]].
    rewrite Er in Er'. now injection Er' as <- <-.
  - discriminate.
Qed.

Lemma consistent_fresh (dim : Q) : consistent (fresh dim).
Proof. exact I. Qed.

(** A call that raises breaks the consistency: after [[1, 1]], the weights
    [[-1]] are stored before the division fails, and the next call with
    [[-1]] is answered with the dict of [[1, 1]]. *)
Example parameters_after_failure (mm : res bool) :
  exists s1 p s2,
    parameters mm [1; 1] (fresh 2) = (s1, Ok p) /\
    parameters mm [-1] s1 = (s2, Raise ZeroDivisionError) /\
    weights s2 = Present [-1] /\ _parameters s2 = Present p /\
    parameters mm [-1] s2 = (s2, Ok p) /\ ~ consistent s2.
Proof.
  eexists. eexists. eexists. split; [reflexivity|].
  split; [reflexivity|]. split; [reflexivity|]. split; [reflexivity|].
  split; [reflexivity|]. intros [H _]. discriminate H.
Qed.

(** The hand-computed instance: weights [[1, 1]], dimension 2. *)
Example parameters_1_1_dim_2 :
  exists s1 p mueff,
    parameters (Ok false) [1; 1] (fresh 2) = (s1, Ok p) /\
    mueff_of (positive [1; 1]) = Ok mueff /\ mueff == 2 /\
    c1 p == (1 # 3) * 2 / ((33 # 10) ^ 2 + 2) /\
    cmu p == 1 # 18.
Proof.
  eexists. eexists. eexists. split; [reflexivity|].
  split; [reflexivity|]. repeat split.
Qed.

(** C5 on a broadcast comparison. A sampler of dimension 2 is asked for the
    parameters of [[2]] and then of [[2, 2, 2]]: the one-element stored array
    is broadcast against the new one, the comparison holds, and the second
    call returns the dict built for [[2]] without storing or computing
    anything, although [c1] and [cmu] of [[2, 2, 2]] are different numbers. *)
Theorem parameters_broadcast_stale (mm : res bool) :
  exists s1 p,
    parameters mm [2] (fresh 2) = (s1, Ok p) /\
    parameters mm [2; 2; 2] s1 = (s1, Ok p) /\
    weights s1 = Present [2] /\ dicts_built s1 = 1%nat /\
    c1 p == c1_spec 2 [2] /\
    ~ c1 p == c1_spec 2 [2; 2; 2] /\ ~ cmu p == cmu_spec 2 [2; 2; 2].
Proof.
  eexists. eexists. split; [reflexivity|]. split; [reflexivity|].
  split; [reflexivity|]. split; [reflexivity|].
  split; [reflexivity|]. split; intro H; discriminate H.
Qed.

(** Against C9 as stated. One vector and no weight: the failure is the
    unimplemented one, the same as with one vector and one weight; no
    invalid-argument error is raised and the matching call does not return. *)
Lemma update_no_length_check :
  snd (update [[1]] [] (fresh 2)) = Raise NotImplementedError /\
  snd (update [[1]] [] (fresh 2)) <> Raise ValueError /\
  snd (update [[1]] [1] (fresh 2)) <> Ok tt.
Proof. repeat split; discriminate. Qed.

(** C9, as the code has it. [update] of the base class fails with the
    unimplemented failure whatever the lengths of its arguments and leaves
    the sampler as it was; it compares no lengths. *)
Theorem update_unimplemented (vectors : list (list Q)) (ws : list Q)
    (s : sampler) :
  update vectors ws s = (s, Raise NotImplementedError).
Proof.
  unfold update, raise. reflexivity.
Qed.

(** A call without a positive weight fails after it has stored the weights:
    the old dict stays in the cache, and the next call with the same weights
    is answered with it, or fails again when there is none. *)
Theorem parameters_failure_keeps_dict (mm : res bool) (ws : list Q)
    (s : sampler) :
  ~ has_positive ws -> cached mm ws s = Ok None ->
  exists s1,
    parameters mm ws s = (s1, Raise ZeroDivisionError) /\
    weights s1 = Present ws /\ _parameters s1 = _parameters s /\
    dicts_built s1 = dicts_built s /\
    match _parameters s with
    | Present p => parameters mm ws s1 = (s1, Ok p)
    | Absent => parameters mm ws s1 = (s1, Raise ZeroDivisionError)
    end.
Proof.
  intros Hn Hc. pose proof (rates_no_positive (dimension s) Hn) as Er.
  eexists. split; [unfold parameters; rewrite Hc, Er; reflexivity|].
  simpl. repeat split.
  unfold parameters at 1 2, cached. simpl. rewrite np_all_eq_refl.
  destruct (_parameters s) as [|p]; [|reflexivity].
  now rewrite Er.
Qed.

Lemma parameters_failure_keeps_dict_witness :
  ~ has_positive [-1] /\ cached (Ok false) [-1] (fresh 2) = Ok None /\
  exists s1,
    parameters (Ok false) [-1] (fresh 2) = (s1, Raise ZeroDivisionError) /\
    weights s1 = Present [-1].
Proof.
  assert (H : ~ has_positive [-1]).
  { intros [w [[<-|[]] Hw]]. discriminate Hw. }
  split; [exact H|]. split; [reflexivity|].
  destruct (@parameters_failure_keeps_dict (Ok false) [-1] (fresh 2) H eq_refl)
    as [s1 [H1 [H2 _]]].
  exists s1. split; [exact H1 | exact H2].
Defined.

Lemma parameters_twice_witness :
  exists s1 p,
    parameters (Ok false) [1; 1] (fresh 2) = (s1, Ok p) /\
    parameters (Ok false) [1; 1] s1 = (s1, Ok p).
Proof.
  eexists. eexists. split; [reflexivity|].
  apply (@parameters_twice (Ok false) [1; 1] (fresh 2)). reflexivity.
Defined.


End SamplerFacts.

(** * Properties of [parameters] in binary64 *)

Module Binary64Facts.

Import Binary64.
Local Open Scope float_scope.







(** C4 on a broadcast comparison. A sampler of dimension 2 is asked for
    the parameters of [[2.0]], which are the formulas of [[2.0]], and then
    of [[2.0, 2.0, 2.0]]: the second call returns the same dict, whose [c1]
    and [cmu] are not the formulas of [[2.0, 2.0, 2.0]]. On a sampler
    without stored weights the same weights do get their formulas. *)
Theorem parameters_not_the_formulas (mm : res bool) :
  exists s1 p,
    parameters mm [2] (fresh 2) = (s1, Ok p) /\
    c1 p = c1_formula 2 [2] /\ cmu p = cmu_formula 2 [2] /\
    parameters mm [2; 2; 2] s1 = (s1, Ok p) /\
    (c1 p =? c1_formula 2 [2; 2; 2]) = false /\
    (cmu p =? cmu_formula 2 [2; 2; 2]) = false /\
    exists s2 q,
      parameters mm [2; 2; 2] (fresh 2) = (s2, Ok q) /\
      c1 q = c1_formula 2 [2; 2; 2] /\ cmu q = cmu_formula 2 [2; 2; 2].
Proof.
  eexists. eexists. split; [vm_compute; reflexivity|].
  split; [vm_compute; reflexivity|]. split; [vm_compute; reflexivity|].
  split; [vm_compute; reflexivity|]. split; [vm_compute; reflexivity|].
  split; [vm_compute; reflexivity|].
  eexists. eexists. split; [vm_compute; reflexivity|].
  split; vm_compute; reflexivity.
Qed.

(** The instance of the specification on the code: weights [[1, 1]] and
    dimension 2 give [mueff = 2.0] and [c1 = min(1, 2/6) * 2 / (3.3**2 + 2)]
    evaluated in float64, where [3.3] is the float64 sum [2 + 1.3]. *)
Example parameters_1_1_dim_2_binary64 :
  divide (square (sum (positive [1; 1]))) (sum (squares (positive [1; 1])))
  = Ok 2 /\
  exists s1 p,
    parameters (Ok false) [1; 1] (fresh 2) = (s1, Ok p) /\
    c1 p = 1 / 3 * 2 / ((2 + one_point_three) * (2 + one_point_three) + 2).
Proof.
  split; [vm_compute; reflexivity|].
  eexists. eexists. split; vm_compute; reflexivity.
Qed.

(** Weights of another length, with a numpy that refuses to compare
    arrays of shapes [(2,)] and [(3,)]: the [ValueError] of the comparison
    is not an [AttributeError], it leaves [parameters], and nothing is
    stored or computed. *)
Example parameters_length_change_raises :
  exists s1 p,
    parameters (Raise ValueError) [1; 1] (fresh 2) = (s1, Ok p) /\
    parameters (Raise ValueError) [1; 1; 1] s1 = (s1, Raise ValueError).
Proof.
  eexists. eexists. split; vm_compute; reflexivity.
Qed.

End Binary64Facts.

(** * Properties of the driver *)

Module OptimizerFacts.

Import Optimizer.
Local Open Scope Z_scope.

Section Traces.

Variables St X F : Type.

Lemma count_app (p : event X F -> bool) (t u : list (event X F)) :
  count p (t ++ u) = (count p t + count p u)%nat.
Proof. unfold count. now rewrite filter_app, length_app. Qed.

Lemma count_cons (p : event X F -> bool) (e : event X F)
    (t : list (event X F)) :
  count p (e :: t) = ((if p e then 1 else 0) + count p t)%nat.
Proof. unfold count. simpl. now destruct (p e). Qed.

Lemma count_none (p q : event X F -> bool) (t : list (event X F)) :
  Forall (fun e => q e = true) t ->
  (forall e, q e = true -> p e = false) -> count p t = 0%nat.
Proof.
  intros H Hpq. induction H as [|e t He _ IH]; [reflexivity|].
  now rewrite count_cons, IH, (Hpq e He).
Qed.

Lemma count_map_eval (p : event X F -> bool) (xs : list X) :
  (forall x, p (EvEval x) = true) -> count p (map EvEval xs) = length xs.
Proof.
  intro H. induction xs as [|x xs IH]; [reflexivity|].
  simpl. now rewrite count_cons, H, IH.
Qed.

Lemma count_map_eval_0 (p : event X F -> bool) (xs : list X) :
  (forall x, p (EvEval x) = false) -> count p (map EvEval xs) = 0%nat.
Proof.
  intro H. induction xs as [|x xs IH]; [reflexivity|].
  simpl. now rewrite count_cons, H, IH.
Qed.

Lemma call_trace (A : Type) (ev : event X F) (m : M St A)
    (w w' : world St X F) (r : res A) :
  call ev m w = (w', r) -> trace w' = trace w ++ [ev].
Proof.
  unfold call. destruct (m (self w)) as [s r0]. intro E.
  injection E as <- _. reflexivity.
Qed.

Lemma call_self (A : Type) (ev : event X F) (m : M St A)
    (w w' : world St X F) (r : res A) :
  call ev m w = (w', r) -> m (self w) = (self w', r).
Proof.
  unfold call. destruct (m (self w)) as [s r0]. intro E.
  injection E as <- <-. reflexivity.
Qed.

Lemma evaluate_trace (f : X -> M St F) (xs : list X) :
  forall (w w' : world St X F) (r : res (list F)),
    evaluate f xs w = (w', r) ->
    exists ys, trace w' = trace w ++ map EvEval ys /\
      (length ys <= length xs)%nat /\
      forall vs, r = Ok vs -> length ys = length xs /\ length vs = length xs.
Proof.
  induction xs as [|x xs IH]; intros w w' r; simpl.
  - unfold ret. intro E. injection E as <- <-. exists [].
    rewrite app_nil_r. repeat split; auto. now injection H as <-.
  - unfold bind at 1. destruct (call (EvEval x) (f x) w) as [w1 [v|e]] eqn:Ec.
    + apply call_trace in Ec. unfold bind at 1.
      destruct (evaluate f xs w1) as [w2 [vs|e]] eqn:Ee.
      * unfold ret. intro E. injection E as <- <-.
        destruct (IH _ _ _ Ee) as [ys [Ht [Hl Hok]]].
        exists (x :: ys). rewrite Ht, Ec, <- app_assoc. simpl.
        destruct (Hok vs eq_refl) as [H1 H2].
        repeat split; try lia. injection H as <-. simpl. lia.
      * intro E. injection E as <- <-.
        destruct (IH _ _ _ Ee) as [ys [Ht [Hl Hok]]].
        exists (x :: ys). rewrite Ht, Ec, <- app_assoc. simpl.
        repeat split; try lia; discriminate.
    + apply call_trace in Ec. intro E. injection E as <- <-.
      exists [x]. rewrite Ec. simpl. repeat split; try lia; discriminate.
Qed.


Variable o : OOOptimizer St X F.

Lemma dispatch_trace (cbs : list (pyval St)) :
  forall k (w w' : world St X F) (r : res unit),
    dispatch k cbs w = (w', r) ->
    exists t, trace w' = trace w ++ t /\
      Forall (fun e => is_callback e = true) t.
Proof.
  induction cbs as [|c cbs IH]; intros k w w' r; simpl.
  - unfold ret. intro E. injection E as <- <-. exists [].
    now rewrite app_nil_r.
  - unfold bind. destruct c as [|g|].
    + unfold ret. apply IH.
    + destruct (call (EvCallback k) g w) as [w1 [[]|e]] eqn:Ec;
        apply call_trace in Ec.
      * intro E. destruct (IH _ _ _ _ E) as [t [Ht Hf]].
        exists (EvCallback k :: t). rewrite Ht, Ec, <- app_assoc.
        split; [reflexivity | now constructor].
      * intro E. injection E as <- <-. exists [EvCallback k].
        split; [exact Ec | now repeat constructor].
    + unfold raise. intro E. injection E as <- <-. exists [].
      now rewrite app_nil_r.
Qed.


(** The [None] test of the dispatch: a [None] entry is passed over. *)
Lemma dispatch_None (k : nat) (cbs : list (pyval St)) (w : world St X F) :
  dispatch k (VNone :: cbs) w = dispatch (S k) cbs w.
Proof. reflexivity. Qed.

Variable a : args St X F.

Lemma iteration_trace (cbs : list (pyval St)) (w w' : world St X F)
    (r : res nat) :
  iteration o a cbs w = (w', r) ->
  exists ys t,
    trace w' = trace w ++ EvAsk :: map EvEval ys ++ t /\
    Forall (fun e => after_eval e = true) t /\
    (forall n, r = Ok n -> n = length ys) /\
    (forall k, ask_bound o k -> (length ys <= k)%nat).
Proof.
  unfold iteration. unfold bind at 1.
  destruct (call EvAsk (ask o) w) as [w1 [xs|e]] eqn:Ea;
    pose proof (call_trace _ _ _ Ea) as Ht1;
    pose proof (call_self _ _ _ Ea) as Hs1.
  2:{ intro E. injection E as <- <-. exists [], []. simpl.
      repeat split; auto; try discriminate. intros; lia. }
  unfold bind at 1.
  destruct (evaluate (objective_fct a) xs w1) as [w2 [vs|e]] eqn:Ee;
    destruct (evaluate_trace _ _ _ Ee) as [ys [Ht2 [Hl Hok]]].
  2:{ intro E. injection E as <- <-. exists ys, []. rewrite Ht2, Ht1.
      rewrite app_nil_r, <- app_assoc. simpl.
      repeat split; auto; try discriminate.
      intros k Hk. specialize (Hk _ _ _ Hs1). lia. }
  destruct (Hok vs eq_refl) as [Hy Hv].
  assert (Hb : forall k, ask_bound o k -> (length ys <= k)%nat).
  { intros k Hk. specialize (Hk _ _ _ Hs1). lia. }
  unfold bind at 1.
  destruct (call EvTell (tell o xs vs) w2) as [w3 [[]|e]] eqn:Et;
    apply call_trace in Et.
  2:{ intro E. injection E as <- <-. exists ys, [EvTell].
      rewrite Et, Ht2, Ht1, <- !app_assoc. simpl.
      repeat split; auto; try discriminate; now repeat constructor. }
  unfold bind at 1.
  destruct (call (EvDisp (verb_disp a)) (disp o (verb_disp a)) w3)
    as [w4 [[]|e]] eqn:Ed; apply call_trace in Ed.
  2:{ intro E. injection E as <- <-. exists ys, [EvTell; EvDisp (verb_disp a)].
      rewrite Ed, Et, Ht2, Ht1, <- !app_assoc. simpl.
      repeat split; auto; try discriminate; now repeat constructor. }
  unfold bind at 1.
  destruct (dispatch 0 cbs w4) as [w5 [[]|e]] eqn:Ec;
    destruct (dispatch_trace _ _ _ Ec) as [t [Ht5 Hf]];
    assert (Hft : Forall (fun e => after_eval e = true)
                    (EvTell :: EvDisp (verb_disp a) :: t))
      by (repeat constructor;
          eapply Forall_impl; [|exact Hf]; now intros [] He).
  - unfold ret. intro E. injection E as <- <-.
    exists ys, (EvTell :: EvDisp (verb_disp a) :: t).
    rewrite Ht5, Ed, Et, Ht2, Ht1, <- !app_assoc. simpl.
    repeat split; auto. intros n E. injection E as <-. lia.
  - intro E. injection E as <- <-.
    exists ys, (EvTell :: EvDisp (verb_disp a) :: t).
    rewrite Ht5, Ed, Et, Ht2, Ht1, <- !app_assoc. simpl.
    repeat split; auto. discriminate.
Qed.


Lemma iteration_events (ys : list X) (t : list (event X F)) :
  Forall (fun e => after_eval e = true) t ->
  count is_ask (EvAsk :: map EvEval ys ++ t) = 1%nat /\
  count is_eval (EvAsk :: map EvEval ys ++ t) = length ys /\
  Forall (fun e => in_loop e = true) (EvAsk :: map EvEval ys ++ t).
Proof.
  intro H. rewrite !count_cons, !count_app. simpl.
  rewrite (count_map_eval_0 is_ask), (count_map_eval is_eval) by reflexivity.
  rewrite (count_none is_ask after_eval H), (count_none is_eval after_eval H)
    by (intros [] ?; reflexivity || discriminate).
  repeat split; try lia. constructor; [reflexivity|].
  apply Forall_app. split.
  - apply Forall_forall. intros e He. apply in_map_iff in He.
    now destruct He as [x [<- _]].
  - eapply Forall_impl; [|exact H]. now intros [] He.
Qed.

(** What one run of the loop does, from any value of the counters. *)
Lemma while_loop_inv (cbs : list (pyval St)) :
  forall fuel citer cevals (w w' : world St X F) (r : res ctrl),
    while_loop o fuel a cbs citer cevals w = Some (w', r) ->
    exists t,
      trace w' = trace w ++ t /\
      Forall (fun e => in_loop e = true) t /\
      (forall k, ask_bound o k ->
         count is_eval t = 0%nat \/
         cevals + Z.of_nat (count is_eval t) < maxfun a + Z.of_nat k) /\
      (maxfun a <= cevals -> count in_iteration t = 0%nat) /\
      (forall n, iterations a = Some n -> n <> 0 ->
         count is_ask t = 0%nat \/ citer + Z.of_nat (count is_ask t) <= n) /\
      (forall c e, r = Ok (Return c e) ->
         c = citer + Z.of_nat (count is_ask t) /\
         e = cevals + Z.of_nat (count is_eval t) /\
         (maxfun a <= e \/ ceiling_reached (iterations a) c = true)) /\
      (forall rs c e, r = Ok (Break rs c e) ->
         c = citer + Z.of_nat (count is_ask t) /\
         e = cevals + Z.of_nat (count is_eval t) /\
         min_iterations a <= c /\ truthy rs = true).
Proof.
  induction fuel as [|fuel IH]; intros citer cevals w w' r; simpl;
    [discriminate|].
  destruct (call EvStop (stop o) w) as [w1 [rs|e]] eqn:Es;
    apply call_trace in Es.
  2:{ intro E. injection E as <- <-. exists [EvStop].
      split; [exact Es|]. split; [now repeat constructor|].
      repeat split; try discriminate; auto. }
  destruct (negb (truthy rs) || (citer <? min_iterations a)) eqn:Etest.
  2:{ intro E. injection E as <- <-. exists [EvStop].
      split; [exact Es|]. split; [now repeat constructor|].
      apply orb_false_iff in Etest. destruct Etest as [Hstop Hmin].
      apply Z.ltb_ge in Hmin. apply negb_false_iff in Hstop.
      repeat split; try discriminate; auto;
        injection H as <- <- <-; simpl; auto; lia. }
  destruct ((maxfun a <=? cevals) || ceiling_reached (iterations a) citer)
    eqn:Ebudget.
  { intro E. injection E as <- <-. exists [EvStop].
    split; [exact Es|]. split; [now repeat constructor|].
    repeat split; try discriminate; auto;
      try (injection H as <- <-; simpl; lia).
    injection H as <- <-. apply orb_true_iff in Ebudget.
    destruct Ebudget as [Hm|Hc]; [left; now apply Z.leb_le | now right]. }
  apply orb_false_iff in Ebudget. destruct Ebudget as [Hmax Hceil].
  apply Z.leb_gt in Hmax.
  destruct (iteration o a cbs w1) as [w2 [n|e]] eqn:Ei;
    destruct (iteration_trace _ _ Ei) as [ys [t1 [Ht1 [Hf1 [Hn Hb]]]]];
    destruct (iteration_events ys Hf1) as [Hask [Heval Hloop]].
  2:{ intro E. injection E as <- <-.
      exists (EvStop :: EvAsk :: map EvEval ys ++ t1).
      split; [rewrite Ht1, Es, <- app_assoc; reflexivity|].
      split; [now constructor|].
      rewrite !(count_cons _ EvStop), Hask, Heval. simpl.
      repeat split; try discriminate; try lia.
      - intros k Hk. right. specialize (Hb k Hk). lia.
      - intros m Hm Hm0. right. unfold ceiling_reached in Hceil.
        rewrite Hm in Hceil. destruct (m =? 0) eqn:E0; [lia|].
        apply Z.leb_gt in Hceil. lia. }
  intro E.
  destruct (IH _ _ _ _ _ E) as [t2 [Ht2 [Hf2 [He2 [_ [Hi2 [Hr2 Hb2]]]]]]].
  rewrite (Hn n eq_refl) in *.
  exists (EvStop :: (EvAsk :: map EvEval ys ++ t1) ++ t2).
  split; [rewrite Ht2, Ht1, Es, <- !app_assoc; reflexivity|].
  split; [constructor; [reflexivity | now apply Forall_app]|].
  rewrite !(count_cons _ EvStop), !count_app, Hask, Heval. simpl.
  repeat split; try lia.
  - intros k Hk. right. specialize (Hb k Hk).
    destruct (He2 k Hk) as [H0|H1]; lia.
  - intros m Hm Hm0. right. unfold ceiling_reached in Hceil.
    rewrite Hm in Hceil. destruct (m =? 0) eqn:E0; [lia|].
    apply Z.leb_gt in Hceil. destruct (Hi2 m Hm Hm0) as [H0|H1]; lia.
  - destruct (Hr2 _ _ H) as [Hc _]. lia.
  - destruct (Hr2 _ _ H) as [_ [He _]]. lia.
  - destruct (Hr2 _ _ H) as [Hc [He [Hm|Hm]]]; [left; lia | now right].
  - destruct (Hb2 _ _ _ H) as [Hc _]. lia.
  - destruct (Hb2 _ _ _ H) as [_ [He _]]. lia.
  - destruct (Hb2 _ _ _ H) as [_ [_ [Hm _]]]. lia.
  - now destruct (Hb2 _ _ _ H) as [_ [_ [_ Hs]]].
Qed.


Lemma while_loop_terminates (cbs : list (pyval St)) (n : Z) :
  iterations a = Some n -> n <> 0 ->
  forall fuel citer cevals (w : world St X F),
    Z.max 0 (n - citer) < Z.of_nat fuel ->
    exists out, while_loop o fuel a cbs citer cevals w = Some out.
Proof.
  intros Hn Hn0. induction fuel as [|fuel IH]; intros citer cevals w Hf;
    [lia|]. simpl.
  destruct (call EvStop (stop o) w) as [w1 [rs|e]]; [|eauto].
  destruct (negb (truthy rs) || (citer <? min_iterations a)); [|eauto].
  destruct ((maxfun a <=? cevals) || ceiling_reached (iterations a) citer)
    eqn:Eb; [eauto|].
  apply orb_false_iff in Eb. destruct Eb as [_ Hc].
  unfold ceiling_reached in Hc. rewrite Hn in Hc.
  destruct (n =? 0) eqn:E0; [apply Z.eqb_eq in E0; contradiction|].
  apply Z.leb_gt in Hc.
  destruct (iteration o a cbs w1) as [w2 [m|e]]; [|eauto].
  apply IH. lia.
Qed.

Lemma force_final_logging_trace (w w' : world St X F) (r : res unit) :
  _force_final_logging o w = (w', r) ->
  exists t, trace w' = trace w ++ EvForceFinalLogging :: t /\
    Forall (fun e => in_final_output e = true) t.
Proof.
  unfold _force_final_logging. simpl.
  destruct (logger o (self w)) as [|[lg|]].
  - intro E. injection E as <- <-. now exists [].
  - destruct (add lg) as [|f].
    + intro E. injection E as <- <-. now exists [].
    + match goal with
      | |- context [call ?ev ?m ?w0] =>
        destruct (call ev m w0) as [w1 [[]|e]] eqn:Ec; apply call_trace in Ec
      end; simpl in Ec.
      * intro E. injection E as <- <-. eexists. split.
        -- rewrite Ec, <- app_assoc. reflexivity.
        -- now repeat constructor.
      * destruct e; intro E; injection E as <- <-; eexists;
          (split; [simpl; rewrite ?Ec, <- ?app_assoc; simpl; reflexivity
                  | now repeat constructor]).
  - intro E. injection E as <- <-. now exists [].
Qed.

Lemma final_output_trace (w w' : world St X F) (r : res unit) :
  final_output o a w = (w', r) ->
  exists t, trace w' = trace w ++ EvForceFinalLogging :: t /\
    Forall (fun e => in_final_output e = true) t.
Proof.
  unfold final_output. unfold bind at 1.
  destruct (_force_final_logging o w) as [w1 [[]|e]] eqn:Ef;
    destruct (force_final_logging_trace _ Ef) as [t1 [Ht1 Hf1]].
  2:{ intro E. injection E as <- <-. now exists t1. }
  destruct (flag (verb_disp a)).
  2:{ unfold ret. intro E. injection E as <- <-. now exists t1. }
  assert (Hsnoc : forall (w2 w3 : world St X F) t2 e,
             trace w2 = trace w ++ EvForceFinalLogging :: t2 ->
             Forall (fun e => in_final_output e = true) t2 ->
             trace w3 = trace w2 ++ [e] -> in_final_output e = true ->
             trace w3 = trace w ++ EvForceFinalLogging :: (t2 ++ [e]) /\
             Forall (fun e => in_final_output e = true) (t2 ++ [e])).
  { intros w2 w3 t2 e H2 F2 H3 He. split.
    - rewrite H3, H2, <- app_assoc. reflexivity.
    - apply Forall_app. split; [exact F2 | now repeat constructor]. }
  unfold bind at 1.
  destruct (call (EvDisp (Some 1)) (disp o (Some 1)) w1) as [w2 [[]|e]] eqn:E2;
    apply call_trace in E2;
    destruct (Hsnoc _ _ _ _ Ht1 Hf1 E2 eq_refl) as [Ht2 Hf2].
  2:{ intro E. injection E as <- <-. eauto. }
  unfold bind at 1.
  destruct (call EvStop (stop o) w2) as [w3 [rs|e]] eqn:E3;
    apply call_trace in E3;
    destruct (Hsnoc _ _ _ _ Ht2 Hf2 E3 eq_refl) as [Ht3 Hf3].
  2:{ intro E. injection E as <- <-. eauto. }
  unfold bind at 1. unfold print at 1.
  match goal with
  | |- context [bind _ _ ?w0] => set (w4 := w0)
  end.
  destruct (Hsnoc w3 w4 _ (EvPrint (PTermination rs)) Ht3 Hf3 eq_refl eq_refl)
    as [Ht4 Hf4].
  unfold bind at 1.
  destruct (call EvResult (result o) w4) as [w5 [r1|e]] eqn:E5;
    apply call_trace in E5;
    destruct (Hsnoc _ _ _ _ Ht4 Hf4 E5 eq_refl) as [Ht5 Hf5].
  2:{ intro E. injection E as <- <-. eauto. }
  unfold bind at 1. unfold print at 1.
  match goal with
  | |- context [bind _ _ ?w0] => set (w6 := w0)
  end.
  destruct (Hsnoc w5 w6 _ (EvPrint (PBestF (snd r1))) Ht5 Hf5 eq_refl eq_refl)
    as [Ht6 Hf6].
  unfold bind at 1.
  destruct (call EvResult (result o) w6) as [w7 [r0|e]] eqn:E7;
    apply call_trace in E7;
    destruct (Hsnoc _ _ _ _ Ht6 Hf6 E7 eq_refl) as [Ht7 Hf7].
  2:{ intro E. injection E as <- <-. eauto. }
  unfold print. intro E. injection E as <- <-.
  match goal with
  | |- context [trace ?w0 = _] => set (w8 := w0)
  end.
  destruct
    (Hsnoc w7 w8 _ (EvPrint (PSolution (fst r0))) Ht7 Hf7 eq_refl eq_refl)
    as [Ht8 Hf8].
  eauto.
Qed.


Lemma in_loop_counts (t : list (event X F)) :
  Forall (fun e => in_loop e = true) t -> count is_flush t = 0%nat.
Proof.
  intro H. apply (count_none is_flush in_loop H). now intros [].
Qed.

Lemma in_final_output_counts (t : list (event X F)) :
  Forall (fun e => in_final_output e = true) t ->
  count is_flush t = 0%nat /\ count is_eval t = 0%nat /\
  count is_ask t = 0%nat /\ count in_iteration t = 0%nat.
Proof.
  intro H. repeat split;
    apply (fun p Hp => count_none p in_final_output H Hp); now intros [].
Qed.

(** The ways through [optimize]. *)
Lemma optimize_cases (fuel : nat) (w w' : world St X F) (r : res unit) :
  optimize o fuel a w = Some (w', r) ->
  (w' = w /\
   ((precondition a = false /\ r = Raise AssertionError) \/
    (precondition a = true /\
     exists e, _prepare_callback_list o (callback a) (self w) = Raise e /\
               r = Raise e))) \/
  (exists cbs w1 rl,
     precondition a = true /\
     _prepare_callback_list o (callback a) (self w) = Ok cbs /\
     while_loop o fuel a cbs 0 0 w = Some (w1, rl) /\
     ((exists e, rl = Raise e /\ w' = w1 /\ r = Raise e) \/
      (exists c e, rl = Ok (Return c e) /\ w' = w1 /\ r = Ok tt) \/
      (exists rs c e,
         rl = Ok (Break rs c e) /\ final_output o a w1 = (w', r)))).
Proof.
  unfold optimize. destruct (precondition a).
  2:{ intro E. injection E as <- <-. left. split; [reflexivity|]. now left. }
  destruct (_prepare_callback_list o (callback a) (self w)) as [cbs|e].
  2:{ intro E. injection E as <- <-. left. split; [reflexivity|]. right.
      split; [reflexivity|]. now exists e. }
  destruct (while_loop o fuel a cbs 0 0 w) as [[w1 [[rs c e|c e]|e]]|] eqn:El;
    [| | |discriminate]; intro E; right; exists cbs, w1.
  - eexists. repeat split; [exact El|]. right. right. exists rs, c, e.
    split; [reflexivity|]. now injection E.
  - injection E as <- <-. eexists. repeat split; [exact El|]. right. left.
    now exists c, e.
  - injection E as <- <-. eexists. repeat split; [exact El|]. left.
    now exists e.
Qed.

End Traces.

(** ** The claims on [optimize] *)

Section Claims.

Variables St X F : Type.
Variable o : OOOptimizer St X F.

(** C1, as the code has it. When [optimize] returns, it has called
    [_force_final_logging], once, exactly when the loop ended through its
    test ([stop()] non-empty with [min_iterations] met); when the loop ended
    through a budget ([cevals >= maxfun] or the iteration ceiling) it
    returned from inside the loop and nothing ran after it: no flush. *)
Theorem optimize_final_logging (a : args St X F) (fuel : nat)
    (w w' : world St X F) :
  optimize o fuel a w = Some (w', Ok tt) ->
  exists cbs w1 c e t,
    _prepare_callback_list o (callback a) (self w) = Ok cbs /\
    trace w' = trace w ++ t /\
    ((exists rs,
        while_loop o fuel a cbs 0 0 w = Some (w1, Ok (Break rs c e)) /\
        truthy rs = true /\ min_iterations a <= c /\
        count is_flush t = 1%nat) \/
     (while_loop o fuel a cbs 0 0 w = Some (w1, Ok (Return c e)) /\
      (maxfun a <= e \/ ceiling_reached (iterations a) c = true) /\
      w' = w1 /\ count is_flush t = 0%nat)).
Proof.
  intro H. apply optimize_cases in H.
  destruct H as [[_ [[_ H]|[_ [e [_ H]]]]]|H]; try discriminate.
  destruct H as [cbs [w1 [rl [_ [Hp [Hl H]]]]]].
  assert (Hinv := Hl). apply while_loop_inv in Hinv.
  destruct Hinv as [t1 [Ht1 [Hf1 [_ [_ [_ [Hret Hbrk]]]]]]].
  pose proof (in_loop_counts Hf1) as Hc1.
  destruct H as [[e [_ [_ H]]]|[[c [e [Hrl [-> _]]]]|[rs [c [e [Hrl Hfin]]]]]];
    [discriminate| |].
  - exists cbs, w1, c, e, t1. split; [exact Hp|]. split; [exact Ht1|].
    right. destruct (Hret _ _ Hrl) as [_ [He Hb]]. subst rl.
    repeat split; auto; rewrite He; exact Hb.
  - assert (Hout := Hfin). apply final_output_trace in Hout.
    destruct Hout as [t2 [Ht2 Hf2]].
    destruct (in_final_output_counts Hf2) as [Hc2 _].
    exists cbs, w1, c, e, (t1 ++ EvForceFinalLogging :: t2).
    split; [exact Hp|]. split; [rewrite Ht2, Ht1, <- app_assoc; reflexivity|].
    left. destruct (Hbrk _ _ _ Hrl) as [_ [_ [Hm Hs]]]. subst rl. exists rs.
    repeat split; auto; rewrite count_app, count_cons, Hc1, Hc2; reflexivity.
Qed.


(** Everything [optimize] does is the loop's events from the counters
    [0, 0], then, when the loop ended through its test, the final output. *)
Lemma optimize_trace (a : args St X F) (fuel : nat) (w w' : world St X F)
    (r : res unit) :
  optimize o fuel a w = Some (w', r) ->
  exists t1 t2,
    trace w' = trace w ++ t1 ++ t2 /\
    count is_eval (t1 ++ t2) = count is_eval t1 /\
    count is_ask (t1 ++ t2) = count is_ask t1 /\
    count in_iteration (t1 ++ t2) = count in_iteration t1 /\
    (forall k, ask_bound o k ->
       count is_eval t1 = 0%nat \/
       Z.of_nat (count is_eval t1) < maxfun a + Z.of_nat k) /\
    (maxfun a <= 0 -> count in_iteration t1 = 0%nat) /\
    (forall n, iterations a = Some n -> n <> 0 ->
       count is_ask t1 = 0%nat \/ Z.of_nat (count is_ask t1) <= n) /\
    (r = Ok tt ->
     min_iterations a <= Z.of_nat (count is_ask t1) \/
     maxfun a <= Z.of_nat (count is_eval t1) \/
     ceiling_reached (iterations a) (Z.of_nat (count is_ask t1)) = true).
Proof.
  intro H. apply optimize_cases in H.
  destruct H as [[-> H]|H].
  { exists [], []. rewrite app_nil_r. simpl.
    repeat split; auto. destruct H as [[_ ->]|[_ [e [_ ->]]]]; discriminate. }
  destruct H as [cbs [w1 [rl [_ [Hp [Hl H]]]]]].
  assert (Hinv := Hl). apply while_loop_inv in Hinv.
  destruct Hinv as [t1 [Ht1 [Hf1 [Hev [Hmax [Hit [Hret Hbrk]]]]]]].
  simpl in Hev, Hit.
  destruct H
    as [[e [_ [-> ->]]]|[[c [e [Hrl [-> ->]]]]|[rs [c [e [Hrl Hfin]]]]]].
  - exists t1, []. rewrite !app_nil_r. repeat split; auto. discriminate.
  - exists t1, []. rewrite !app_nil_r. repeat split; auto.
    intros _. destruct (Hret _ _ Hrl) as [Hc [He Hb]]. simpl in Hc, He.
    subst c e. right. exact Hb.
  - assert (Hout := Hfin). apply final_output_trace in Hout.
    destruct Hout as [t2 [Ht2 Hf2]].
    destruct (in_final_output_counts Hf2) as [_ [He2 [Ha2 Hi2]]].
    exists t1, (EvForceFinalLogging :: t2).
    rewrite !count_app, !count_cons, He2, Ha2, Hi2. simpl.
    split; [rewrite Ht2, Ht1, <- app_assoc; reflexivity|].
    repeat split; auto; try lia.
    intros _. destruct (Hbrk _ _ _ Hrl) as [Hc [_ [Hm _]]]. simpl in Hc.
    subst c. now left.
Qed.


(** C2, as the code has it. The budget [maxfun] is tested before each
    iteration, not inside one: when every batch of [ask] holds at most [k]
    candidates, [optimize] evaluates the objective function not at all or
    fewer than [maxfun + k] times (at most [maxfun] times for [k = 1]),
    whether it returns or raises. With [maxfun <= 0] no iteration runs: [ask], the
    objective function, [tell] and the callbacks are not called, one round
    of the loop is all that [optimize] needs, and when the loop is entered
    ([stop()] empty or [min_iterations] positive) [optimize] returns right
    after that first [stop()]. The test comes before every iteration
    whatever [citer] and [min_iterations] are. *)
Theorem optimize_evaluation_budget (a : args St X F) (k : nat) :
  ask_bound o k ->
  (forall fuel (w w' : world St X F) r,
     optimize o fuel a w = Some (w', r) ->
     exists t, trace w' = trace w ++ t /\
       (count is_eval t = 0%nat \/
        Z.of_nat (count is_eval t) < maxfun a + Z.of_nat k) /\
       (maxfun a <= 0 -> count in_iteration t = 0%nat)) /\
  (forall fuel cbs citer cevals (w w' : world St X F) r,
     maxfun a <= cevals ->
     while_loop o fuel a cbs citer cevals w = Some (w', r) ->
     exists t, trace w' = trace w ++ t /\ count in_iteration t = 0%nat) /\
  (maxfun a <= 0 ->
   forall fuel (w : world St X F),
     (exists out, optimize o (S fuel) a w = Some out) /\
     (forall cbs s' rs,
        precondition a = true ->
        _prepare_callback_list o (callback a) (self w) = Ok cbs ->
        stop o (self w) = (s', Ok rs) ->
        truthy rs = false \/ 0 < min_iterations a ->
        optimize o (S fuel) a w
        = Some ({| self := s'; trace := trace w ++ [EvStop] |}, Ok tt))).
Proof.
  intro Hk. split; [|split].
  - intros fuel w w' r H. apply optimize_trace in H.
    destruct H as [t1 [t2 [Ht [He [_ [Hi [Hb [Hm _]]]]]]]].
    exists (t1 ++ t2). split; [exact Ht|]. rewrite He, Hi. split; auto.
  - intros fuel cbs citer cevals w w' r Hm H. apply while_loop_inv in H.
    destruct H as [t [Ht [_ [_ [H0 _]]]]]. exists t. auto.
  - intros Hm fuel w.
    assert (Hle : (maxfun a <=? 0) = true) by now apply Z.leb_le.
    split.
    + unfold optimize. destruct (precondition a); [|eauto].
      destruct (_prepare_callback_list o (callback a) (self w)) as [cbs|e];
        [|eauto].
      simpl. destruct (call EvStop (stop o) w) as [w1 [rs|e]]; [|eauto].
      destruct (negb (truthy rs) || (0 <? min_iterations a)); [|eauto].
      rewrite Hle. simpl. eauto.
    + intros cbs s' rs Hpre Hcb Hstop Htest. unfold optimize.
      rewrite Hpre, Hcb. simpl. unfold call. rewrite Hstop.
      replace (negb (truthy rs) || (0 <? min_iterations a)) with true.
      * now rewrite Hle.
      * symmetry. apply orb_true_iff. destruct Htest as [H|H].
        -- left. now rewrite H.
        -- right. now apply Z.ltb_lt.
Qed.

(** With [iterations] set to a number other than [0], [optimize] starts at
    most that many iterations. *)
Lemma optimize_iteration_ceiling (a : args St X F) (n : Z) :
  iterations a = Some n -> n <> 0 ->
  forall fuel (w w' : world St X F) r,
    optimize o fuel a w = Some (w', r) ->
    exists t, trace w' = trace w ++ t /\ Z.of_nat (count is_ask t) <= Z.max 0 n.
Proof.
  intros Hn Hn0 fuel w w' r H. apply optimize_trace in H.
  destruct H as [t1 [t2 [Ht [_ [Ha [_ [_ [_ [Hi _]]]]]]]]].
  exists (t1 ++ t2). split; [exact Ht|]. rewrite Ha.
  destruct (Hi n Hn Hn0); lia.
Qed.

(** With [iterations] set to a number other than [0], [optimize] ends:
    that many rounds of the loop and one more are enough. *)
Lemma optimize_terminates (a : args St X F) (n : Z) :
  iterations a = Some n -> n <> 0 ->
  forall (w : world St X F),
    exists out, optimize o (S (Z.to_nat n)) a w = Some out.
Proof.
  intros Hn Hn0 w. unfold optimize. destruct (precondition a); [|eauto].
  destruct (_prepare_callback_list o (callback a) (self w)) as [cbs|e];
    [|eauto].
  destruct (while_loop_terminates o a cbs Hn Hn0 (S (Z.to_nat n)) 0 0 w)
    as [[w1 rl] Hl]; [lia|].
  rewrite Hl. destruct rl as [[rs c e|c e]|e]; eauto.
Qed.

(** When [optimize] returns, [min_iterations] iterations have run unless a
    budget stopped the loop: [stop()] alone does not end it earlier. *)
Lemma optimize_min_iterations (a : args St X F) (fuel : nat)
    (w w' : world St X F) :
  optimize o fuel a w = Some (w', Ok tt) ->
  exists t, trace w' = trace w ++ t /\
    (min_iterations a <= Z.of_nat (count is_ask t) \/
     maxfun a <= Z.of_nat (count is_eval t) \/
     ceiling_reached (iterations a) (Z.of_nat (count is_ask t)) = true).
Proof.
  intro H. apply optimize_trace in H.
  destruct H as [t1 [t2 [Ht [He [Ha [_ [_ [_ [_ Hr]]]]]]]]].
  exists (t1 ++ t2). split; [exact Ht|]. rewrite He, Ha. now apply Hr.
Qed.


(** The forced final flush does nothing when [logger] is [None]. *)
Lemma force_final_logging_None (w : world St X F) :
  logger o (self w) = Present None ->
  _force_final_logging o w =
    ({| self := self w; trace := trace w ++ [EvForceFinalLogging] |}, Ok tt).
Proof. intro H. unfold _force_final_logging. simpl. now rewrite H. Qed.


(** Without a [logger] attribute the flush raises [AttributeError]. *)
Lemma force_final_logging_Absent (w : world St X F) :
  logger o (self w) = Absent ->
  _force_final_logging o w =
    ({| self := self w; trace := trace w ++ [EvForceFinalLogging] |},
     Raise AttributeError).
Proof. intro H. unfold _force_final_logging. simpl. now rewrite H. Qed.

(** [_prepare_callback_list] does not raise for want of a logger. *)
Lemma prepare_callback_list_Absent (s : St) :
  logger o s = Absent -> _prepare_callback_list o CbNone s = Ok [].
Proof.
  intro H. unfold _prepare_callback_list, logger_add. now rewrite H.
Qed.

End Claims.

(** ** Runs of the driver on the concrete optimizer *)

Lemma stub_ask_bound (lg : attr (option (logger_obj Stub.state))) :
  ask_bound (Stub.optimizer lg) 2.
Proof.
  intros s s' xs H. unfold Stub.optimizer, Stub.ask, ret in H. simpl in H.
  injection H as _ <-. simpl. lia.
Qed.

(** Against C1 as stated. A logger is attached. With [iterations=1] one
    iteration runs and the second pass finds [citer >= iterations]; with
    [maxfun=2] the two evaluations of the first iteration use up the budget.
    Both calls return without having entered [_force_final_logging]. *)
Lemma optimize_budget_exit_without_flush :
  (exists w',
     optimize (Stub.optimizer (Present (Some Stub.data_logger))) 5
       (Stub.with_budgets (10 ^ 99) (Some 1) 1) Stub.start = Some (w', Ok tt) /\
     count is_ask (trace w') = 1%nat /\ count is_flush (trace w') = 0%nat) /\
  (exists w',
     optimize (Stub.optimizer (Present (Some Stub.data_logger))) 5
       (Stub.with_budgets 2 None 1) Stub.start = Some (w', Ok tt) /\
     count is_ask (trace w') = 1%nat /\ count is_flush (trace w') = 0%nat).
Proof.
  split; eexists; (split; [vm_compute; reflexivity|]); split; reflexivity.
Qed.

Lemma optimize_final_logging_witness :
  exists w',
    optimize (Stub.optimizer (Present (Some Stub.data_logger))) 10
      Stub.defaults Stub.start = Some (w', Ok tt) /\
    exists cbs w1 c e t,
      _prepare_callback_list (Stub.optimizer (Present (Some Stub.data_logger)))
        (callback Stub.defaults) (self Stub.start) = Ok cbs /\
      trace w' = trace Stub.start ++ t /\
      ((exists rs,
          while_loop (Stub.optimizer (Present (Some Stub.data_logger))) 10
            Stub.defaults cbs 0 0 Stub.start = Some (w1, Ok (Break rs c e)) /\
          truthy rs = true /\ min_iterations Stub.defaults <= c /\
          count is_flush t = 1%nat) \/
       (while_loop (Stub.optimizer (Present (Some Stub.data_logger))) 10
          Stub.defaults cbs 0 0 Stub.start = Some (w1, Ok (Return c e)) /\
        (maxfun Stub.defaults <= e \/
         ceiling_reached (iterations Stub.defaults) c = true) /\
        w' = w1 /\ count is_flush t = 0%nat)).
Proof.
  eexists. split; [vm_compute; reflexivity|].
  apply (@optimize_final_logging _ _ _
           (Stub.optimizer (Present (Some Stub.data_logger)))
           Stub.defaults 10 Stub.start).
  vm_compute. reflexivity.
Defined.

(** Against C2 as stated. [maxfun=1] and batches of two candidates: the
    first iteration starts with [cevals = 0 < 1] and evaluates both. *)
Lemma optimize_maxfun_overshoot :
  exists w',
    optimize (Stub.optimizer (Present None)) 5
      (Stub.with_budgets 1 None 1) Stub.start = Some (w', Ok tt) /\
    count is_eval (trace w') = 2%nat /\
    maxfun (Stub.with_budgets 1 None 1) < Z.of_nat (count is_eval (trace w')).
Proof.
  eexists. split; [vm_compute; reflexivity|]. split; reflexivity.
Qed.

Lemma optimize_evaluation_budget_witness :
  ask_bound (Stub.optimizer (Present None)) 2 /\
  exists w' t,
    optimize (Stub.optimizer (Present None)) 5
      (Stub.with_budgets 1 None 1) Stub.start = Some (w', Ok tt) /\
    trace w' = trace Stub.start ++ t /\
    (count is_eval t = 0%nat \/
     Z.of_nat (count is_eval t)
     < maxfun (Stub.with_budgets 1 None 1) + Z.of_nat 2).
Proof.
  split; [apply stub_ask_bound|].
  destruct (@optimize_evaluation_budget _ _ _ (Stub.optimizer (Present None))
              (Stub.with_budgets 1 None 1) 2 (@stub_ask_bound (Present None)))
    as [H _].
  destruct (H 5%nat Stub.start _ _ eq_refl) as [t [Ht [Hb _]]].
  eexists. exists t. split; [reflexivity|]. split; [exact Ht | exact Hb].
Defined.

(** C3 at [iterations=0]. [optimize(f, iterations=0, min_iterations=0)]:
    the assertion [min_iterations <= iterations] holds, [0] is falsy and
    the ceiling becomes [np.inf]; three iterations run, until [stop()]. *)
Theorem optimize_iterations_zero :
  exists w',
    precondition (Stub.with_budgets (10 ^ 99) (Some 0) 0) = true /\
    optimize (Stub.optimizer (Present None)) 10
      (Stub.with_budgets (10 ^ 99) (Some 0) 0) Stub.start = Some (w', Ok tt) /\
    count is_ask (trace w') = 3%nat /\
    Stub.countiter (self w') = 3.
Proof.
  eexists. split; [reflexivity|]. split; [vm_compute; reflexivity|].
  split; reflexivity.
Qed.



(** C7 without a [logger] attribute. An optimizer without a [logger] attribute:
    [_prepare_callback_list] catches the [AttributeError] and the loop runs
    its three iterations; [_force_final_logging] reads [self.logger] outside
    any [try], and the [AttributeError] leaves [optimize]. *)
Theorem optimize_without_logger_attribute :
  exists w',
    _prepare_callback_list (Stub.optimizer Absent) (callback Stub.defaults)
      Stub.init = Ok [] /\
    optimize (Stub.optimizer Absent) 10 Stub.defaults Stub.start
    = Some (w', Raise AttributeError) /\
    count is_ask (trace w') = 3%nat /\
    last (trace w') EvStop = EvForceFinalLogging.
Proof.
  eexists. split; [reflexivity|]. split; [vm_compute; reflexivity|].
  split; reflexivity.
Qed.

(** With a logger whose [add] takes no [modulo] keyword the flush prints
    its notice and [optimize] returns. *)
Example optimize_plain_logger :
  exists w',
    optimize (Stub.optimizer (Present (Some Stub.plain_logger))) 10
      Stub.defaults Stub.start = Some (w', Ok tt) /\
    last (trace w') EvStop = EvPrint PSuppressed /\
    Stub.lines (self w') = 3%nat.
Proof.
  eexists. split; [vm_compute; reflexivity|]. split; reflexivity.
Qed.

(** The scenario of the stub: three iterations, then the final flush. *)
Example optimize_stub_three_iterations :
  exists w',
    optimize (Stub.optimizer (Present (Some Stub.data_logger))) 10
      Stub.defaults Stub.start = Some (w', Ok tt) /\
    count is_ask (trace w') = 3%nat /\ count is_eval (trace w') = 6%nat /\
    count is_flush (trace w') = 1%nat /\
    Stub.xcurrent (self w') = [1; 0] /\ Stub.fcurrent (self w') = 1.
Proof.
  eexists. split; [vm_compute; reflexivity|]. repeat split.
Qed.

(** ** The abstract base class *)

(** Against C8 as stated. [OOOptimizer(xstart)]: [__init__] stores [xstart]
    and [more_kwargs], [initialize] raises, and [countiter] has not been
    assigned: it is not [0]. *)
Lemma base_init_leaves_countiter_unset :
  exists s,
    Base.__init__ [0; 0] [] Base.blank = (s, Raise NotImplementedError) /\
    Base.xstart s = Present [0; 0] /\
    Base.countiter s = Absent /\ Base.countiter s <> Present 0.
Proof.
  eexists. split; [reflexivity|]. repeat split. discriminate.
Qed.

(** C8, as the code has it. In the abstract base class [initialize] raises the
    unimplemented failure and assigns nothing; on an instance whose
    [countiter] is [n], [ask] raises and leaves the instance as it is, and
    [tell] raises after having set [countiter] to [n + 1], the other
    attributes unchanged. *)
Theorem base_countiter (s : Base.instance) (n : Z)
    (solutions : list (list Z)) (function_values : list Z) :
  Base.countiter s = Present n ->
  Base.initialize s = (s, Raise NotImplementedError) /\
  Base.ask s = (s, Raise NotImplementedError) /\
  exists s',
    Base.tell solutions function_values s = (s', Raise NotImplementedError) /\
    Base.countiter s' = Present (n + 1) /\
    Base.xstart s' = Base.xstart s /\
    Base.more_kwargs s' = Base.more_kwargs s /\
    Base.xcurrent s' = Base.xcurrent s.
Proof.
  intro H. split; [reflexivity|]. split; [reflexivity|].
  unfold Base.tell. rewrite H. eexists. split; [reflexivity|].
  repeat split.
Qed.

Lemma base_countiter_witness :
  Base.countiter Base.initialized = Present 0 /\
  exists s',
    Base.tell [[1; 0]] [1] Base.initialized = (s', Raise NotImplementedError) /\
    Base.countiter s' = Present 1.
Proof.
  split; [reflexivity|].
  destruct (@base_countiter Base.initialized 0 [[1; 0]] [1] eq_refl)
    as [_ [_ [s' [Ht [Hc _]]]]].
  exists s'. split; [exact Ht | exact Hc].
Defined.

(** ** Further properties of the driver *)

Section More.

Variables St X F : Type.
Variable o : OOOptimizer St X F.

Lemma callable_map (gs : list (M St unit)) :
  forallb (@callable St) (map (@VCallable St) gs) = true.
Proof. induction gs; simpl; auto. Qed.

Lemma callable_all (l : list (pyval St)) :
  forallb (@callable St) l = true -> exists gs, l = map (@VCallable St) gs.
Proof.
  induction l as [|c l IH]; intro H; [now exists []|].
  simpl in H. apply andb_true_iff in H. destruct H as [Hc Hl].
  destruct (IH Hl) as [gs ->]. destruct c as [|g|]; try discriminate.
  now exists (g :: gs).
Qed.

(** [_prepare_callback_list] returns callables only, the caller's in their
    order and then [logger.add] when it can be looked up; no callback and a
    single callable never fail; the failures are the [TypeError] of
    [list()] on a value that is not iterable and the [ValueError] for a
    list with an entry that is not callable. *)
Theorem prepare_callback_list_result (cb : callback_arg St) (s : St) :
  let extra := match logger_add o s with
               | Some g => [g]
               | None => []
               end in
  match cb with
  | CbNone => _prepare_callback_list o cb s = Ok (map (@VCallable St) extra)
  | CbCallable f =>
    _prepare_callback_list o cb s = Ok (map (@VCallable St) (f :: extra))
  | CbNotIterable => _prepare_callback_list o cb s = Raise TypeError
  | CbList l =>
    (forall gs, l = map (@VCallable St) gs ->
       _prepare_callback_list o cb s = Ok (map (@VCallable St) (gs ++ extra)))
    /\ (forallb (@callable St) l = false ->
        _prepare_callback_list o cb s = Raise ValueError)
  end.
Proof.
  unfold _prepare_callback_list.
  destruct cb as [|f|l|]; simpl; destruct (logger_add o s) as [g|];
    try reflexivity.
  - split.
    + intros gs ->. rewrite map_app. simpl.
      now rewrite forallb_app, callable_map.
    + intro H. now rewrite forallb_app, H.
  - split.
    + intros gs ->. now rewrite app_nil_r, callable_map.
    + intro H. now rewrite H.
Qed.

Lemma prepare_callback_list_callables (cb : callback_arg St) (s : St)
    (cbs : list (pyval St)) :
  _prepare_callback_list o cb s = Ok cbs ->
  exists gs, cbs = map (@VCallable St) gs.
Proof.
  unfold _prepare_callback_list.
  destruct cb as [|f|l|]; simpl; try discriminate;
    match goal with
    | |- (if forallb _ ?l1 then _ else _) = _ -> _ =>
      destruct (forallb (@callable St) l1) eqn:E; [|discriminate];
      intro H; injection H as <-; now apply callable_all
    end.
Qed.

Variable a : args St X F.

Lemma evaluate_ok_trace (f : X -> M St F) (xs : list X) :
  forall (w w' : world St X F) vs,
    evaluate f xs w = (w', Ok vs) ->
    trace w' = trace w ++ map EvEval xs /\ length vs = length xs.
Proof.
  induction xs as [|x xs IH]; intros w w' vs; simpl.
  - unfold ret. intro E. injection E as <- <-. now rewrite app_nil_r.
  - unfold bind at 1.
    destruct (call (EvEval x) (f x) w) as [w1 [v|e]] eqn:Ec; [|discriminate].
    apply call_trace in Ec. unfold bind at 1.
    destruct (evaluate f xs w1) as [w2 [vs'|e]] eqn:Ee; [|discriminate].
    unfold ret. intro E. injection E as <- <-.
    destruct (IH _ _ _ Ee) as [Ht Hl]. rewrite Ht, Ec, <- app_assoc.
    simpl. split; [reflexivity | now rewrite Hl].
Qed.

(** With an objective function that computes its value and touches nothing,
    the function values are the values of the candidates, in their order,
    one call each, and the instance is as [ask] left it. *)
Theorem evaluate_pure (g : X -> F) (f : X -> M St F) (xs : list X)
    (w : world St X F) :
  (forall x s, f x s = (s, Ok (g x))) ->
  evaluate f xs w
  = ({| self := self w; trace := trace w ++ map EvEval xs |}, Ok (map g xs)).
Proof.
  intro Hf. revert w. induction xs as [|x xs IH]; intro w; simpl.
  - unfold ret. rewrite app_nil_r. now destruct w.
  - unfold bind at 1. unfold call at 1. rewrite Hf. unfold bind at 1.
    rewrite IH. unfold ret. simpl. now rewrite <- app_assoc.
Qed.

(** What a recorded call does to the world. *)
Lemma call_world (A : Type) (ev : event X F) (m : M St A)
    (w w' : world St X F) (r : res A) :
  call ev m w = (w', r) ->
  exists s, m (self w) = (s, r) /\
            w' = {| self := s; trace := trace w ++ [ev] |}.
Proof.
  unfold call. destruct (m (self w)) as [s r0]. intro E.
  injection E as <- <-. now exists s.
Qed.

(** Callbacks that all return: the instance goes through them in the order
    of the list. *)
Lemma dispatch_ok (gs : list (M St unit)) :
  forall k (w w' : world St X F),
    dispatch k (map (@VCallable St) gs) w = (w', Ok tt) ->
    all_return gs (self w) /\
    w' = {| self := run_all gs (self w);
            trace := trace w ++ map EvCallback (seq k (length gs)) |}.
Proof.
  induction gs as [|g gs IH]; intros k w w'; simpl.
  - unfold ret. intro E. injection E as <-. split; [exact I|].
    rewrite app_nil_r. now destruct w.
  - unfold bind.
    destruct (call (EvCallback k) g w) as [w1 [[]|e]] eqn:Ec; [|discriminate].
    apply call_world in Ec. destruct Ec as [s1 [Eg ->]].
    intro E. apply IH in E. simpl in E. destruct E as [Ha ->]. split.
    + exists s1. now split.
    + unfold run_all. simpl. rewrite Eg, <- app_assoc. reflexivity.
Qed.

(** A completed iteration, call by call. *)
Lemma iteration_ok_calls (gs : list (M St unit)) (w w' : world St X F)
    (n : nat) :
  iteration o a (map (@VCallable St) gs) w = (w', Ok n) ->
  exists s1 xs w2 vs s3 s4,
    ask o (self w) = (s1, Ok xs) /\
    evaluate (objective_fct a) xs
      {| self := s1; trace := trace w ++ [EvAsk] |} = (w2, Ok vs) /\
    tell o xs vs (self w2) = (s3, Ok tt) /\
    disp o (verb_disp a) s3 = (s4, Ok tt) /\
    all_return gs s4 /\
    w' = {| self := run_all gs s4;
            trace := trace w2 ++ EvTell :: EvDisp (verb_disp a)
                     :: map EvCallback (seq 0 (length gs)) |} /\
    n = length xs.
Proof.
  unfold iteration. unfold bind at 1.
  destruct (call EvAsk (ask o) w) as [w1 [xs|e]] eqn:Ea; [|discriminate].
  apply call_world in Ea. destruct Ea as [s1 [Ea ->]]. unfold bind at 1.
  destruct (evaluate (objective_fct a) xs
              {| self := s1; trace := trace w ++ [EvAsk] |})
    as [w2 [vs|e]] eqn:Ee; [|discriminate].
  unfold bind at 1.
  destruct (call EvTell (tell o xs vs) w2) as [w3 [[]|e]] eqn:Et;
    [|discriminate].
  apply call_world in Et. destruct Et as [s3 [Et ->]]. unfold bind at 1.
  destruct (call (EvDisp (verb_disp a)) (disp o (verb_disp a))
              {| self := s3; trace := trace w2 ++ [EvTell] |})
    as [w4 [[]|e]] eqn:Ed; [|discriminate].
  apply call_world in Ed. simpl in Ed. destruct Ed as [s4 [Ed ->]].
  unfold bind at 1.
  destruct (dispatch 0 (map (@VCallable St) gs)
              {| self := s4;
                 trace := (trace w2 ++ [EvTell]) ++ [EvDisp (verb_disp a)] |})
    as [w5 [[]|e]] eqn:Ec; [|discriminate].
  apply dispatch_ok in Ec. simpl in Ec. destruct Ec as [Hall ->].
  unfold ret. intro E. injection E as <- <-.
  exists s1, xs, w2, vs, s3, s4.
  repeat (split; [reflexivity || assumption|]).
  split; [now rewrite <- !app_assoc|].
  apply evaluate_ok_trace in Ee. now destruct Ee.
Qed.

(** The events of completed rounds. *)
Lemma rounds_trace (gs : list (M St unit)) (citer cevals : Z)
    (w w' : world St X F) (batches : list (list X)) :
  rounds o a gs citer cevals w batches w' ->
  trace w' = trace w
             ++ flat_map (round_events (verb_disp a) (length gs)) batches.
Proof.
  induction 1 as [c e w|c e w xs w1 batches w' Hr _ IH].
  - simpl. now rewrite app_nil_r.
  - rewrite IH. destruct Hr as [s0 rs s1 w2 vs s3 s4 _ _ _ _ _ He _ _ _ ->].
    apply evaluate_ok_trace in He. destruct He as [He _]. simpl.
    rewrite He. simpl. unfold round_events. rewrite <- !app_assoc.
    reflexivity.
Qed.

(** A run of the loop that comes to its end: completed rounds, then the
    [stop()] after which the loop is left, by its test or by a budget. *)
Lemma while_loop_run (gs : list (M St unit)) :
  forall fuel citer cevals (w w' : world St X F) (ex : ctrl),
    while_loop o fuel a (map (@VCallable St) gs) citer cevals w
    = Some (w', Ok ex) ->
    exists batches w1 s rs,
      rounds o a gs citer cevals w batches w1 /\
      stop o (self w1) = (s, Ok rs) /\
      w' = {| self := s; trace := trace w1 ++ [EvStop] |} /\
      match ex with
      | Return c e =>
        c = citer + Z.of_nat (length batches) /\
        e = cevals + Z.of_nat (length (concat batches)) /\
        (truthy rs = false \/ c < min_iterations a) /\
        (maxfun a <= e \/ ceiling_reached (iterations a) c = true)
      | Break r c e =>
        r = rs /\
        c = citer + Z.of_nat (length batches) /\
        e = cevals + Z.of_nat (length (concat batches)) /\
        truthy rs = true /\ min_iterations a <= c
      end.
Proof.
  induction fuel as [|fuel IH]; intros citer cevals w w' ex; simpl;
    [discriminate|].
  destruct (call EvStop (stop o) w) as [w0 [rs|e]] eqn:Es; [|discriminate].
  apply call_world in Es. destruct Es as [s0 [Es ->]].
  destruct (negb (truthy rs) || (citer <? min_iterations a)) eqn:Etest.
  2:{ intro E. injection E as <- <-.
      apply orb_false_iff in Etest. destruct Etest as [Ht Hm].
      apply negb_false_iff in Ht. apply Z.ltb_ge in Hm.
      exists [], w, s0, rs. split; [constructor|].
      split; [exact Es|]. split; [reflexivity|]. simpl.
      repeat split; auto; lia. }
  assert (Hgo : truthy rs = false \/ citer < min_iterations a).
  { apply orb_true_iff in Etest. destruct Etest as [Ht|Hm].
    - left. now apply negb_true_iff in Ht.
    - right. now apply Z.ltb_lt in Hm. }
  destruct ((maxfun a <=? cevals) || ceiling_reached (iterations a) citer)
    eqn:Ebud.
  { intro E. injection E as <- <-.
    exists [], w, s0, rs. split; [constructor|].
    split; [exact Es|]. split; [reflexivity|]. simpl.
    rewrite !Z.add_0_r. repeat split; auto.
    apply orb_true_iff in Ebud. destruct Ebud as [Hb|Hb].
    - left. now apply Z.leb_le in Hb.
    - now right. }
  apply orb_false_iff in Ebud. destruct Ebud as [Hmax Hceil].
  apply Z.leb_gt in Hmax.
  destruct (iteration o a (map (@VCallable St) gs)
              {| self := s0; trace := trace w ++ [EvStop] |})
    as [w2 [n|e]] eqn:Ei; [|discriminate].
  apply iteration_ok_calls in Ei. simpl in Ei.
  destruct Ei as [s1 [xs [w3 [vs [s3 [s4
                   [Ha [He [Ht [Hd [Hall [-> ->]]]]]]]]]]]].
  intro E. destruct (IH _ _ _ _ _ E) as [batches [w1 [s [rs' [Hr [Hs [-> Hex]]]]]]].
  exists (xs :: batches), w1, s, rs'. split.
  - econstructor; [|exact Hr].
    apply (@round_intro _ _ _ o a gs citer cevals w xs _ s0 rs s1 w3 vs s3 s4);
      auto.
    rewrite <- He. rewrite <- app_assoc. reflexivity.
  - split; [exact Hs|]. split; [reflexivity|]. simpl. rewrite length_app.
    destruct ex; repeat split; try tauto; lia.
Qed.

(** A run of [optimize] that returns is made of completed rounds and of
    what follows the last one. In each round [stop()] lets the loop go on
    and no budget is reached, [ask()] delivers the batch, the objective
    function is called on the candidates of that batch in order, [tell]
    gets the batch and the values, [disp(verb_disp)] is called, and the
    callbacks of the prepared list are called in the order of the list,
    each on the instance as the one before left it. After the last round
    [stop()] is called once more: either a budget is reached and
    [optimize] returns there, or the test of the loop fails and the final
    output runs. The counters are the number of rounds and of candidates. *)
Theorem optimize_rounds (fuel : nat) (w w' : world St X F) :
  optimize o fuel a w = Some (w', Ok tt) ->
  exists gs batches w1 s rs,
    _prepare_callback_list o (callback a) (self w)
    = Ok (map (@VCallable St) gs) /\
    rounds o a gs 0 0 w batches w1 /\
    trace w1 = trace w
               ++ flat_map (round_events (verb_disp a) (length gs)) batches /\
    stop o (self w1) = (s, Ok rs) /\
    let citer := Z.of_nat (length batches) in
    let cevals := Z.of_nat (length (concat batches)) in
    let w2 := {| self := s; trace := trace w1 ++ [EvStop] |} in
    ((truthy rs = false \/ citer < min_iterations a) /\
     (maxfun a <= cevals \/ ceiling_reached (iterations a) citer = true) /\
     w' = w2)
    \/ (truthy rs = true /\ min_iterations a <= citer /\
        final_output o a w2 = (w', Ok tt)).
Proof.
  intro H. apply optimize_cases in H.
  destruct H as [[_ [[_ H]|[_ [e [_ H]]]]]|H]; try discriminate.
  destruct H as [cbs [w1 [rl [_ [Hp [Hl H]]]]]].
  destruct (prepare_callback_list_callables _ _ Hp) as [gs ->].
  exists gs.
  destruct H as [[e [_ [_ H]]]|[[c [e [-> [-> _]]]]|[rs [c [e [-> Hfin]]]]]];
    [discriminate| |];
    apply while_loop_run in Hl;
    destruct Hl as [batches [w0 [s [rs0 [Hr [Hs [-> Hex]]]]]]];
    exists batches, w0, s, rs0;
    (split; [exact Hp|]); (split; [exact Hr|]);
    (split; [exact (rounds_trace Hr)|]); (split; [exact Hs|]); simpl.
  - left. destruct Hex as [-> [-> [H1 H2]]]. simpl in H1, H2.
    repeat split; assumption.
  - right. destruct Hex as [-> [-> [-> [H1 H2]]]]. simpl in H2.
    repeat split; assumption.
Qed.

Lemma while_loop_stopped (cbs : list (pyval St)) :
  always_stopped o ->
  forall fuel citer cevals (w w' : world St X F) r,
    while_loop o fuel a cbs citer cevals w = Some (w', r) ->
    exists t, trace w' = trace w ++ t /\
      citer + Z.of_nat (count is_ask t) <= Z.max citer (min_iterations a).
Proof.
  intro Hs. induction fuel as [|fuel IH]; intros citer cevals w w' r; simpl;
    [discriminate|].
  destruct (call EvStop (stop o) w) as [w1 [rs|e]] eqn:Es;
    pose proof (call_trace _ _ _ Es) as Ht0.
  2:{ intro E. injection E as <- <-. exists [EvStop]. split; [exact Ht0|].
      simpl. lia. }
  apply call_self in Es. apply Hs in Es. rewrite Es. simpl.
  destruct (citer <? min_iterations a) eqn:Emin.
  2:{ intro E. injection E as <- <-. exists [EvStop]. split; [exact Ht0|].
      simpl. lia. }
  apply Z.ltb_lt in Emin.
  destruct ((maxfun a <=? cevals) || ceiling_reached (iterations a) citer).
  { intro E. injection E as <- <-. exists [EvStop]. split; [exact Ht0|].
    simpl. lia. }
  destruct (iteration o a cbs w1) as [w2 [n|e]] eqn:Ei;
    destruct (iteration_trace _ _ _ _ Ei) as [ys [t1 [Ht1 [Hf1 _]]]];
    destruct (iteration_events ys Hf1) as [Hask _].
  2:{ intro E. injection E as <- <-.
      exists (EvStop :: EvAsk :: map EvEval ys ++ t1).
      split; [rewrite Ht1, Ht0, <- app_assoc; reflexivity|].
      rewrite (count_cons _ EvStop), Hask. simpl. lia. }
  intro E. destruct (IH _ _ _ _ _ E) as [t2 [Ht2 Hc]].
  exists (EvStop :: (EvAsk :: map EvEval ys ++ t1) ++ t2).
  split; [rewrite Ht2, Ht1, Ht0, <- !app_assoc; reflexivity|].
  rewrite (count_cons _ EvStop), count_app, Hask. simpl. lia.
Qed.

(** When [stop()] is non-empty at every call, [optimize] runs no more than
    [min_iterations] iterations, and a run that returns has run exactly
    that many unless a budget ended it. *)
Theorem optimize_stopped (fuel : nat) (w w' : world St X F) (r : res unit) :
  always_stopped o ->
  optimize o fuel a w = Some (w', r) ->
  exists t, trace w' = trace w ++ t /\
    Z.of_nat (count is_ask t) <= Z.max 0 (min_iterations a) /\
    (r = Ok tt ->
     Z.of_nat (count is_ask t) = Z.max 0 (min_iterations a) \/
     maxfun a <= Z.of_nat (count is_eval t) \/
     ceiling_reached (iterations a) (Z.of_nat (count is_ask t)) = true).
Proof.
  intros Hs H. apply optimize_cases in H. destruct H as [[-> H]|H].
  { exists []. rewrite app_nil_r. simpl. split; [reflexivity|].
    split; [lia|].
    intros ->. destruct H as [[_ H]|[_ [e [_ H]]]]; discriminate. }
  destruct H as [cbs [w1 [rl [_ [Hp [Hl H]]]]]].
  destruct (while_loop_stopped cbs Hs _ _ _ _ Hl) as [t1 [Ht1 Hb]].
  assert (Hinv := Hl). apply while_loop_inv in Hinv.
  destruct Hinv as [t1' [Ht1' [_ [_ [_ [_ [Hret Hbrk]]]]]]].
  rewrite Ht1 in Ht1'. apply app_inv_head in Ht1'. subst t1'.
  simpl in Hret, Hbrk, Hb.
  destruct H
    as [[e [_ [-> ->]]]|[[c [e [Hrl [-> ->]]]]|[rs [c [e [Hrl Hfin]]]]]].
  - exists t1. split; [exact Ht1|]. split; [lia | discriminate].
  - exists t1. split; [exact Ht1|]. split; [lia|]. intros _.
    destruct (Hret _ _ Hrl) as [Hc [He Hbud]]. subst c e. now right.
  - apply final_output_trace in Hfin. destruct Hfin as [t2 [Ht2 Hf2]].
    destruct (in_final_output_counts Hf2) as [_ [He2 [Ha2 _]]].
    exists (t1 ++ EvForceFinalLogging :: t2).
    split; [rewrite Ht2, Ht1, <- app_assoc; reflexivity|].
    rewrite !count_app, !count_cons, He2, Ha2. simpl.
    rewrite !Nat.add_0_r. split; [lia|]. intros _.
    destruct (Hbrk _ _ _ Hrl) as [Hc [_ [Hm _]]]. left. lia.
Qed.

Lemma dispatch_raises (g : M St unit) (cbs : list (pyval St)) :
  In (VCallable g) cbs ->
  (forall s, exists s' e, g s = (s', Raise e)) ->
  forall k (w : world St X F),
    exists w' e, dispatch k cbs w = (w', Raise e).
Proof.
  intros Hin Hg. induction cbs as [|c cbs IH]; [contradiction|].
  intros k w. simpl. unfold bind. destruct Hin as [->|Hin].
  - unfold call. destruct (Hg (self w)) as [s' [e He]]. rewrite He. eauto.
  - destruct c as [|h|].
    + unfold ret. now apply IH.
    + destruct (call (EvCallback k) h w) as [w1 [[]|e]]; [now apply IH | eauto].
    + unfold raise. eauto.
Qed.

Lemma iteration_raises (cbs : list (pyval St)) :
  (forall k (w : world St X F),
     exists w' e, dispatch k cbs w = (w', Raise e)) ->
  forall (w w' : world St X F) n, iteration o a cbs w <> (w', Ok n).
Proof.
  intros Hd w w' n. unfold iteration. unfold bind at 1.
  destruct (call EvAsk (ask o) w) as [w1 [xs|e]]; [|discriminate].
  unfold bind at 1.
  destruct (evaluate (objective_fct a) xs w1) as [w2 [vs|e]]; [|discriminate].
  unfold bind at 1.
  destruct (call EvTell (tell o xs vs) w2) as [w3 [[]|e]]; [|discriminate].
  unfold bind at 1.
  destruct (call (EvDisp (verb_disp a)) (disp o (verb_disp a)) w3)
    as [w4 [[]|e]]; [|discriminate].
  unfold bind at 1. destruct (Hd 0%nat w4) as [w5 [e He]]. rewrite He.
  discriminate.
Qed.

(** With a bare [BaseDataLogger] attached, whose [add] raises, no iteration
    completes and the final flush does not either: [optimize] returns only
    when a budget ends the loop at its first pass, after one [stop()]. *)
Theorem optimize_base_data_logger (fuel : nat) (w w' : world St X F) :
  logs_to_base o ->
  optimize o fuel a w = Some (w', Ok tt) ->
  trace w' = trace w ++ [EvStop] /\
  (maxfun a <= 0 \/ ceiling_reached (iterations a) 0 = true).
Proof.
  intros Hlg H. apply optimize_cases in H.
  destruct H as [[_ [[_ H]|[_ [e [_ H]]]]]|H]; try discriminate.
  destruct H as [cbs [w1 [rl [_ [Hp [Hl H]]]]]].
  assert (Hd : forall k (w0 : world St X F),
             exists w0' e, dispatch k cbs w0 = (w0', Raise e)).
  { apply (@dispatch_raises (raise NotImplementedError)).
    - unfold _prepare_callback_list, logger_add in Hp.
      rewrite (Hlg (self w)) in Hp. simpl in Hp.
      destruct (callback a) as [|f|l|]; simpl in Hp; try discriminate;
        try match type of Hp with
            | (if ?b then _ else _) = _ => destruct b; [|discriminate]
            end;
        injection Hp as <-; try (apply in_or_app; right); simpl; auto.
    - intro s. unfold raise. eauto. }
  destruct fuel as [|fuel]; [discriminate|]. simpl in Hl.
  destruct (call EvStop (stop o) w) as [w2 [rs|e]] eqn:Es.
  2:{ injection Hl as <- <-.
      destruct H as [[e' [_ [_ H]]]|[[c [e' [H _]]]|[r0 [c [e' [H _]]]]]];
        discriminate. }
  apply call_trace in Es.
  destruct (negb (truthy rs) || (0 <? min_iterations a)).
  - destruct ((maxfun a <=? 0) || ceiling_reached (iterations a) 0) eqn:Eb.
    + injection Hl as <- <-.
      destruct H as [[e' [H _]]|[[c [e' [_ [-> _]]]]|[r0 [c [e' [H _]]]]]];
        try discriminate.
      split; [exact Es|]. apply orb_true_iff in Eb.
      destruct Eb as [Hm|Hc]; [left; now apply Z.leb_le | now right].
    + destruct (iteration o a cbs w2) as [w3 [n|e]] eqn:Ei.
      * exfalso. exact (@iteration_raises cbs Hd _ _ _ Ei).
      * injection Hl as <- <-.
        destruct H as [[e' [_ [_ H]]]|[[c [e' [H _]]]|[r0 [c [e' [H _]]]]]];
          discriminate.
  - injection Hl as <- <-.
    destruct H as [[e' [H _]]|[[c [e' [H _]]]|[r0 [c [e' [_ Hfin]]]]]];
      try discriminate.
    exfalso. unfold final_output, bind, _force_final_logging in Hfin.
    simpl in Hfin. rewrite (Hlg (self w2)) in Hfin. simpl in Hfin.
    unfold call, raise in Hfin. simpl in Hfin. discriminate.
Qed.

(** What is wrong with the arguments is found before anything is done: an
    [iterations] below [min_iterations] fails the assertion, a callback that
    is neither callable nor iterable raises [TypeError], a list with an
    entry that is not callable raises [ValueError]; no method of the
    instance has been called, however much fuel there is. *)
Theorem optimize_setup_errors (fuel : nat) (w : world St X F) :
  (precondition a = false ->
   optimize o fuel a w = Some (w, Raise AssertionError)) /\
  (precondition a = true -> callback a = CbNotIterable ->
   optimize o fuel a w = Some (w, Raise TypeError)) /\
  (forall l, precondition a = true -> callback a = CbList l ->
     forallb (@callable St) l = false ->
     optimize o fuel a w = Some (w, Raise ValueError)).
Proof.
  unfold optimize. split; [|split].
  - now intros ->.
  - intros -> Hc. unfold _prepare_callback_list. now rewrite Hc.
  - intros l -> Hc Hl. unfold _prepare_callback_list. rewrite Hc.
    destruct (logger_add o (self w)).
    + now rewrite forallb_app, Hl.
    + now rewrite Hl.
Qed.


End More.

(** [optimize] on the abstract class fails with the unimplemented failure
    of [stop()], the first method the loop calls; [ask] and [tell] are not
    reached. *)
Theorem optimize_abstract (a : args Base.instance (list Z) Z) (fuel : nat)
    (w : world Base.instance (list Z) Z) (cbs : list (pyval Base.instance)) :
  precondition a = true ->
  _prepare_callback_list Base.optimizer (callback a) (self w) = Ok cbs ->
  optimize Base.optimizer (S fuel) a w
  = Some ({| self := self w; trace := trace w ++ [EvStop] |},
          Raise NotImplementedError).
Proof.
  intros Hpre Hp. unfold optimize. rewrite Hpre, Hp. reflexivity.
Qed.

(** ** Instances *)

Lemma optimize_abstract_witness :
  optimize Base.optimizer 1
    {| objective_fct := fun x => ret (Stub.sphere x); maxfun := 100;
       iterations := None; min_iterations := 1; verb_disp := None;
       callback := CbNone |}
    {| self := Base.initialized; trace := [] |}
  = Some ({| self := Base.initialized; trace := [EvStop] |},
          Raise NotImplementedError).
Proof.
  apply (@optimize_abstract _ 0 {| self := Base.initialized; trace := [] |} []);
    reflexivity.
Defined.

Lemma optimize_iteration_ceiling_witness :
  exists w',
    optimize (Stub.optimizer (Present None)) 5
      (Stub.with_budgets 100 (Some 2) 1) Stub.start = Some (w', Ok tt) /\
    exists t, trace w' = trace Stub.start ++ t /\
              Z.of_nat (count is_ask t) <= Z.max 0 2.
Proof.
  eexists. split; [vm_compute; reflexivity|].
  apply (@optimize_iteration_ceiling _ _ _ (Stub.optimizer (Present None))
           (Stub.with_budgets 100 (Some 2) 1) 2 eq_refl
           ltac:(discriminate) 5%nat Stub.start _ (Ok tt)).
  vm_compute. reflexivity.
Defined.

Lemma optimize_terminates_witness :
  exists out,
    optimize (Stub.optimizer (Present None)) (S (Z.to_nat 2))
      (Stub.with_budgets 100 (Some 2) 1) Stub.start = Some out.
Proof.
  apply (@optimize_terminates _ _ _ (Stub.optimizer (Present None))
           (Stub.with_budgets 100 (Some 2) 1) 2 eq_refl).
  discriminate.
Defined.

Lemma optimize_min_iterations_witness :
  exists w',
    optimize stub_stopped 5 (Stub.with_budgets 100 None 2) Stub.start
    = Some (w', Ok tt) /\
    exists t, trace w' = trace Stub.start ++ t /\
      (min_iterations (Stub.with_budgets 100 None 2)
       <= Z.of_nat (count is_ask t) \/
       maxfun (Stub.with_budgets 100 None 2) <= Z.of_nat (count is_eval t) \/
       ceiling_reached (iterations (Stub.with_budgets 100 None 2))
         (Z.of_nat (count is_ask t)) = true).
Proof.
  eexists. split; [vm_compute; reflexivity|].
  apply (@optimize_min_iterations _ _ _ stub_stopped
           (Stub.with_budgets 100 None 2) 5 Stub.start).
  vm_compute. reflexivity.
Defined.

Lemma stub_always_stopped : always_stopped stub_stopped.
Proof. intros s s' rs H. injection H as _ <-. reflexivity. Qed.

Lemma optimize_stopped_witness :
  always_stopped stub_stopped /\
  exists w',
    optimize stub_stopped 5 (Stub.with_budgets 100 None 2) Stub.start
    = Some (w', Ok tt) /\
    exists t, trace w' = trace Stub.start ++ t /\
      Z.of_nat (count is_ask t)
      <= Z.max 0 (min_iterations (Stub.with_budgets 100 None 2)) /\
      (Ok tt = Ok tt ->
       Z.of_nat (count is_ask t)
       = Z.max 0 (min_iterations (Stub.with_budgets 100 None 2)) \/
       maxfun (Stub.with_budgets 100 None 2) <= Z.of_nat (count is_eval t) \/
       ceiling_reached (iterations (Stub.with_budgets 100 None 2))
         (Z.of_nat (count is_ask t)) = true).
Proof.
  split; [exact stub_always_stopped|].
  eexists. split; [vm_compute; reflexivity|].
  apply (@optimize_stopped _ _ _ stub_stopped
           (Stub.with_budgets 100 None 2) 5 Stub.start _ (Ok tt)
           stub_always_stopped).
  vm_compute. reflexivity.
Defined.

Lemma optimize_rounds_witness :
  exists w',
    optimize (Stub.optimizer (Present (Some Stub.data_logger))) 10
      (Stub.with_budgets 100 None 1) Stub.start = Some (w', Ok tt) /\
    exists gs batches w1 s rs,
      _prepare_callback_list
        (Stub.optimizer (Present (Some Stub.data_logger)))
        (callback (Stub.with_budgets 100 None 1)) (self Stub.start)
      = Ok (map (@VCallable Stub.state) gs) /\
      rounds (Stub.optimizer (Present (Some Stub.data_logger)))
        (Stub.with_budgets 100 None 1) gs 0 0 Stub.start batches w1 /\
      trace w1 = trace Stub.start
                 ++ flat_map
                      (round_events
                         (verb_disp (Stub.with_budgets 100 None 1))
                         (length gs)) batches /\
      stop (Stub.optimizer (Present (Some Stub.data_logger))) (self w1)
      = (s, Ok rs) /\
      let citer := Z.of_nat (length batches) in
      let cevals := Z.of_nat (length (concat batches)) in
      let w2 := {| self := s; trace := trace w1 ++ [EvStop] |} in
      ((truthy rs = false
        \/ citer < min_iterations (Stub.with_budgets 100 None 1)) /\
       (maxfun (Stub.with_budgets 100 None 1) <= cevals
        \/ ceiling_reached (iterations (Stub.with_budgets 100 None 1)) citer
           = true) /\
       w' = w2)
      \/ (truthy rs = true /\
          min_iterations (Stub.with_budgets 100 None 1) <= citer /\
          final_output (Stub.optimizer (Present (Some Stub.data_logger)))
            (Stub.with_budgets 100 None 1) w2 = (w', Ok tt)).
Proof.
  eexists. split; [vm_compute; reflexivity|].
  apply (@optimize_rounds _ _ _
           (Stub.optimizer (Present (Some Stub.data_logger)))
           (Stub.with_budgets 100 None 1) 10 Stub.start).
  vm_compute. reflexivity.
Defined.

Lemma stub_logs_to_base :
  logs_to_base (Stub.optimizer (Present (Some (@base_data_logger Stub.state)))).
Proof. intro s. reflexivity. Qed.

Lemma optimize_base_data_logger_witness :
  logs_to_base (Stub.optimizer (Present (Some (@base_data_logger Stub.state))))
  /\ exists w',
    optimize (Stub.optimizer (Present (Some (@base_data_logger Stub.state))))
      3 (Stub.with_budgets 0 None 1) Stub.start = Some (w', Ok tt) /\
    trace w' = trace Stub.start ++ [EvStop].
Proof.
  split; [exact stub_logs_to_base|].
  eexists. split; [reflexivity|].
  apply (@optimize_base_data_logger _ _ _
           (Stub.optimizer (Present (Some (@base_data_logger Stub.state))))
           (Stub.with_budgets 0 None 1) 3 Stub.start _ stub_logs_to_base).
  reflexivity.
Defined.

Lemma optimize_setup_errors_witness :
  precondition (Stub.with_budgets 100 (Some 2) 3) = false /\
  optimize (Stub.optimizer (Present None)) 0
    (Stub.with_budgets 100 (Some 2) 3) Stub.start
  = Some (Stub.start, Raise AssertionError).
Proof.
  split; [reflexivity|].
  apply (@optimize_setup_errors _ _ _ (Stub.optimizer (Present None))
           (Stub.with_budgets 100 (Some 2) 3) 0 Stub.start).
  reflexivity.
Defined.


Lemma evaluate_pure_witness :
  (forall x s, Stub.f x s = (s, Ok (Stub.sphere x))) /\
  evaluate Stub.f [[1; 0]; [0; 1]] Stub.start
  = ({| self := Stub.init; trace := [EvEval [1; 0]; EvEval [0; 1]] |},
     Ok [1; 1]).
Proof.
  split; [reflexivity|].
  apply (@evaluate_pure _ _ _ Stub.sphere Stub.f [[1; 0]; [0; 1]] Stub.start).
  reflexivity.
Defined.

Lemma prepare_callback_list_result_witness :
  [VCallable Stub.add_line] = map (@VCallable Stub.state) [Stub.add_line] /\
  _prepare_callback_list (Stub.optimizer (Present (Some Stub.data_logger)))
    (CbList [VCallable Stub.add_line]) Stub.init
  = Ok (map (@VCallable Stub.state) [Stub.add_line; Stub.add_line]).
Proof.
  split; [reflexivity|].
  pose proof (@prepare_callback_list_result _ _ _
                (Stub.optimizer (Present (Some Stub.data_logger)))
                (CbList [VCallable Stub.add_line]) Stub.init) as H.
  simpl in H. destruct H as [H _]. exact (H [Stub.add_line] eq_refl).
Defined.


End OptimizerFacts.
